(** * Teacher / batch CSV import: model of [fast-import.py] and
      [production-import.py], and the properties of their import pipeline.

    Both scripts read the same seven-column CSV file, build teacher, batch
    and batch-teacher records in memory and write them to three PostgreSQL
    tables with [INSERT ... ON CONFLICT DO NOTHING].

    Modelling conventions.
    - A Python [str] is the list of its Unicode code points ([N]).
    - A tuple passed to [executemany] is a record with one field per column.
    - A table is a finite map from its conflict key to the stored row, so
      the UNIQUE constraint of the schema is part of the type.
    - The connection holds the committed store, the store as seen by the
      open transaction, and the log of the calls made on it.
    - A bulk insert raises exactly when one of its records violates a
      store-side constraint; the three constraints are parameters of the
      development.  [commit], [rollback], [close] and the read-only
      verification queries are taken not to raise.
    - [print] calls are left out. *)

From Stdlib Require Import Ascii String.
From stdpp Require Import base option list gmap strings.

Set Default Proof Using "Type".
#[local] Set Warnings "-clear-no-such-hyp".

(** ** Strings *)

Abbreviation char := N.
Abbreviation str := (list N).

(** A string literal of the source. *)
Definition py (s : string) : str :=
  (λ a, N_of_ascii a) <$> list_ascii_of_string s.

(** The character class [0-9] of the regular expression [[^0-9]]. *)
Definition is_0_9 (c : char) : Prop := (48 ≤ c ∧ c ≤ 57)%N.

#[global] Instance is_0_9_dec c : Decision (is_0_9 c).
Proof. unfold is_0_9. apply _. Defined.

(** [re.sub(r'[^0-9]', '', s)] *)
Definition re_sub_non_digits (s : str) : str := filter is_0_9 s.

(** [x or d] on strings: the empty string is falsy. *)
Definition str_or (x d : str) : str :=
  match x with [] => d | _ => x end.

(** Truth value of a string, and of a list. *)
Definition truthy (x : str) : bool :=
  match x with [] => false | _ => true end.

Definition truthy_list {A} (x : list A) : bool :=
  match x with [] => false | _ => true end.

(** [None if teacher_id == 'null' or not teacher_id else teacher_id] *)
Definition clean_id (teacher_id : str) : option str :=
  if bool_decide (teacher_id = py "null") || negb (truthy teacher_id)
  then None else Some teacher_id.

(** ** Records written to the three tables *)

Record TeacherRec := mkTeacher {
  t_teacher_id : option str;
  t_teacher_name : str;
  t_mobile : str;
  t_district : str;
  t_service_type : str;
  t_training_group : str }.

Record BatchRec := mkBatch {
  b_batch_name : str;
  b_district : str;
  b_coordinator_name : str;
  b_service_type : str;
  b_training_group : str }.

Record LinkRec := mkLink {
  l_batch_name : str;
  l_teacher_mobile : str;
  l_teacher_name : str;
  l_district : str }.

#[global] Instance TeacherRec_eq_dec : EqDecision TeacherRec.
Proof. solve_decision. Defined.
#[global] Instance BatchRec_eq_dec : EqDecision BatchRec.
Proof. solve_decision. Defined.
#[global] Instance LinkRec_eq_dec : EqDecision LinkRec.
Proof. solve_decision. Defined.

(** ** The store *)

Record store := mkStore {
  teachers : gmap str TeacherRec;                (* UNIQUE (mobile) *)
  batches : gmap str BatchRec;                   (* UNIQUE (batch_name) *)
  batch_teachers : gmap (str * str) LinkRec }.   (* UNIQUE (batch_name, teacher_mobile) *)

Definition empty_store : store := mkStore ∅ ∅ ∅.

(** [INSERT INTO teachers ... ON CONFLICT (mobile) DO NOTHING], one row *)
Definition insert_teacher (r : TeacherRec) (s : store) : store :=
  match teachers s !! t_mobile r with
  | Some _ => s
  | None => mkStore (<[t_mobile r := r]> (teachers s)) (batches s) (batch_teachers s)
  end.

(** [INSERT INTO batches ... ON CONFLICT (batch_name) DO NOTHING], one row *)
Definition insert_batch (r : BatchRec) (s : store) : store :=
  match batches s !! b_batch_name r with
  | Some _ => s
  | None => mkStore (teachers s) (<[b_batch_name r := r]> (batches s)) (batch_teachers s)
  end.

(** [INSERT INTO batch_teachers ... ON CONFLICT (batch_name, teacher_mobile)
    DO NOTHING], one row *)
Definition insert_link (r : LinkRec) (s : store) : store :=
  match batch_teachers s !! (l_batch_name r, l_teacher_mobile r) with
  | Some _ => s
  | None => mkStore (teachers s) (batches s)
              (<[(l_batch_name r, l_teacher_mobile r) := r]> (batch_teachers s))
  end.

(** The statement is run once per record, in order; the first record that
    violates a constraint raises and leaves the earlier rows of the call in
    the open transaction. *)
Fixpoint bulk_insert {R} (ok : R → bool) (ins : R → store → store)
    (recs : list R) (w : store) : bool * store :=
  match recs with
  | [] => (true, w)
  | r :: rs => if ok r then bulk_insert ok ins rs (ins r w) else (false, w)
  end.

(** ** The connection *)

Inductive event :=
  | ExecTeachers (recs : list TeacherRec)
  | ExecBatches (recs : list BatchRec)
  | ExecLinks (recs : list LinkRec)
  | Commit
  | Rollback
  | Close.

#[global] Instance event_eq_dec : EqDecision event.
Proof. solve_decision. Defined.

Record connection := mkConn {
  committed : store;
  working : store;
  log : list event }.

Definition connect (db : store) : connection := mkConn db db [].

Definition commit (c : connection) : connection :=
  mkConn (working c) (working c) (log c ++ [Commit]).

Definition rollback (c : connection) : connection :=
  mkConn (committed c) (committed c) (log c ++ [Rollback]).

Definition close (c : connection) : connection :=
  mkConn (committed c) (committed c) (log c ++ [Close]).

Inductive exn := ValueError | StopIteration | OSError | DatabaseError.

(** What the body of a row loop does with one row. *)
Inductive row_result (L : Type) :=
  | Skipped                (* [continue] *)
  | Raised (e : exn)
  | Accepted (m : L).
Arguments Skipped {L}.
Arguments Raised {L} e.
Arguments Accepted {L} m.

(** Result of a Python process: exit status, the store it leaves behind,
    the calls it made on the connection. *)
Record exit := mkExit {
  status : Z;
  final_store : store;
  trace : list event }.

(** What the scripts find when they start. *)
Record world := mkWorld {
  reachable : bool;                    (* [psycopg2.connect] succeeds *)
  db : store;                          (* content of the database *)
  csv : option (list (list str)) }.    (* rows of the file, header first;
                                          [None]: the file cannot be opened *)

(** [cursor.executemany(INSERT ..., recs)]: [true] when the call returns,
    [false] when it raises.  [ok] is the constraint of the table, [ins] its
    one-row insert, [ev] the entry written to the log. *)
Definition executemany {R} (ok : R → bool) (ins : R → store → store)
    (ev : list R → event) (recs : list R) (c : connection) : bool * connection :=
  let '(b, w) := bulk_insert ok ins recs (working c) in
  (b, mkConn (committed c) w (log c ++ [ev recs])).

(** [try: cursor.executemany(...); conn.commit()  except: conn.rollback()] *)
Definition try_commit (r : bool * connection) : connection :=
  if r.1 then commit r.2 else rollback r.2.

(** [if recs: cursor.executemany(INSERT ..., recs)] *)
Definition when_nonempty {R} (exec : list R → connection → bool * connection)
    (recs : list R) (c : connection) : bool * connection :=
  if truthy_list recs then exec recs c else (true, c).

(** Three inserting steps in a row without a handler of their own, then
    [conn.commit()]: the first step that raises ends the sequence. *)
Definition in_one_transaction (f1 f2 f3 : connection → bool * connection)
    (c : connection) : option exn * connection :=
  let '(ok1, c1) := f1 c in
  if negb ok1 then (Some DatabaseError, c1) else
  let '(ok2, c2) := f2 c1 in
  if negb ok2 then (Some DatabaseError, c2) else
  let '(ok3, c3) := f3 c2 in
  if negb ok3 then (Some DatabaseError, c3) else
  (None, commit c3).

(** [except Exception: conn.rollback()] around a [try] body. *)
Definition settle (r : option exn * connection) : connection :=
  match r.1 with Some _ => rollback r.2 | None => r.2 end.

(** ** Observations on the log *)

Definition is_exec (e : event) : bool :=
  match e with ExecTeachers _ | ExecBatches _ | ExecLinks _ => true | _ => false end.


(** The record lists handed to each of the three statements, in order. *)
Definition teacher_chunks (l : list event) : list (list TeacherRec) :=
  omap (λ e, match e with ExecTeachers r => Some r | _ => None end) l.

Definition batch_chunks (l : list event) : list (list BatchRec) :=
  omap (λ e, match e with ExecBatches r => Some r | _ => None end) l.

Definition link_chunks (l : list event) : list (list LinkRec) :=
  omap (λ e, match e with ExecLinks r => Some r | _ => None end) l.

(** ** Inserts as data *)

(** One skip-on-conflict insert of one row. *)
Inductive op :=
  | OpTeacher (r : TeacherRec)
  | OpBatch (r : BatchRec)
  | OpLink (r : LinkRec).

Definition apply_op (o : op) (s : store) : store :=
  match o with
  | OpTeacher r => insert_teacher r s
  | OpBatch r => insert_batch r s
  | OpLink r => insert_link r s
  end.

Definition apply_ops (ops : list op) (s : store) : store :=
  foldl (λ s o, apply_op o s) s ops.

(** The conflict key of the row is in its table. *)
Definition has_key (o : op) (s : store) : Prop :=
  match o with
  | OpTeacher r => is_Some (teachers s !! t_mobile r)
  | OpBatch r => is_Some (batches s !! b_batch_name r)
  | OpLink r => is_Some (batch_teachers s !! (l_batch_name r, l_teacher_mobile r))
  end.

(** The open transaction holds nothing. *)
Definition clean (c : connection) : Prop := working c = committed c.

(** From [c] to [c'] the inserts [ops] were added to the open transaction
    and the calls [evs] were logged; nothing was committed. *)
Definition pending (ops : list op) (evs : list event) (c c' : connection) : Prop :=
  committed c' = committed c ∧
  working c' = apply_ops ops (working c) ∧
  log c' = log c ++ evs.

(** From [c] to [c'] the inserts [ops] were committed and the calls [evs]
    were logged; the open transaction of [c'] holds nothing. *)
Definition advances (ops : list op) (evs : list event) (c c' : connection) : Prop :=
  committed c' = apply_ops ops (committed c) ∧
  working c' = committed c' ∧
  log c' = log c ++ evs.

(** Every record queued for a table so far: those handed to its statement,
    then those still in the buffer. *)
Definition queued {R} (chunks : list (list R)) (buffer : list R) : list R :=
  concat chunks ++ buffer.

(** The step [f] returns ([ok = true]) or raises ([ok = false]) whatever
    the connection, adds the inserts [ops] to the open transaction and logs
    the calls [evs]. *)
Definition exec_step (f : connection → bool * connection) (ok : bool)
    (ops : list op) (evs : list event) : Prop :=
  ∀ c, (f c).1 = ok ∧ pending ops evs c (f c).2.

(** The calls of three steps in a row, of which the first that raises is
    the last one run. *)
Definition steps_events (ok1 ok2 : bool) (e1 e2 e3 : list event) : list event :=
  e1 ++ if ok1 then e2 ++ (if ok2 then e3 else []) else [].

(** ** Escaping *)

(** [s.replace(old, new)] for a pattern [old] of one character. *)
Fixpoint replace_char (old : char) (new : str) (s : str) : str :=
  match s with
  | [] => []
  | ch :: rest =>
    (if bool_decide (ch = old) then new else [ch]) ++ replace_char old new rest
  end.

(** The apostrophe and the backslash. *)
Definition quote : char := 39%N.
Definition backslash : char := 92%N.

(** [escape_sql_string] of production-import.py, lines 21-25. *)
Definition escape_sql_string (value : str) : str :=
  if negb (truthy value) then []
  else replace_char backslash [backslash; backslash]
         (replace_char quote [quote; quote] value).

(** How many times a character occurs in a string. *)
Definition occurrences (ch : char) (s : str) : nat := length (filter (λ x, x = ch) s).

(** ** The inserts behind a log *)

(** The one-row inserts a bulk insert stands for. *)
Definition ops_of_event (e : event) : list op :=
  match e with
  | ExecTeachers recs => OpTeacher <$> recs
  | ExecBatches recs => OpBatch <$> recs
  | ExecLinks recs => OpLink <$> recs
  | _ => []
  end.

Definition ops_of (evs : list event) : list op := concat (ops_of_event <$> evs).

(** The rows of each table among one-row inserts. *)
Definition teacher_recs (ops : list op) : list TeacherRec :=
  omap (λ o, match o with OpTeacher r => Some r | _ => None end) ops.

Definition batch_recs (ops : list op) : list BatchRec :=
  omap (λ o, match o with OpBatch r => Some r | _ => None end) ops.

Definition link_recs (ops : list op) : list LinkRec :=
  omap (λ o, match o with OpLink r => Some r | _ => None end) ops.

(** A batch name that is neither empty nor the literal "null". *)
Definition named (name : str) : Prop := name ≠ [] ∧ name ≠ py "null".

#[global] Instance named_dec name : Decision (named name).
Proof. unfold named. apply _. Defined.

(** ** Concrete instances used in the examples *)

Definition all_ok {R} (r : R) : bool := true.

(** The ASCII part of [str.isdigit]. *)
Definition ascii_isdigit (c : char) : bool := bool_decide (is_0_9 c).

Definition header : list str :=
  py <$> ["District"; "Batch Name"; "Service type"; "Training group";
          "Teacher ID"; "Teacher name"; "Phone number"].

Definition alice : list str :=
  py <$> ["D1"; "B1"; "Primary"; "G1"; "T1"; "Alice"; "(98) 765-43210x9"].

(** Rows with distinct ten-digit phone numbers. *)
Definition digit (n : nat) : char := (48 + N.of_nat (n mod 10))%N.

Definition numbered_phone (i : nat) : str :=
  py "98765" ++
  [digit (i / 100 / 100); digit (i / 1000); digit (i / 100); digit (i / 10); digit i].

Definition numbered_row (i : nat) : list str :=
  [py "D1"; py "B1"; []; []; py "null"; py "Teacher"; numbered_phone i].

Definition rows_1500 : list (list str) := numbered_row <$> seq 0 1500.

(** A store that refuses a batch without a district, and one that refuses
    a teacher without a name. *)
Definition district_required (b : BatchRec) : bool := truthy (b_district b).

(** A row without a district, a row of eight fields, a teacher record
    without a name. *)
Definition no_district : list str :=
  [[]; py "B1"; []; []; py "T1"; py "Alice"; py "9876543210"].

Definition eight_fields : list str :=
  py <$> ["D1"; "B1"; "Primary"; "G1"; "T2"; "Sharma"; " A"; "9876543211"].


(** The worlds of the examples: an empty database, reachable. *)
Definition w_no_district : world :=
  mkWorld true empty_store (Some [header; no_district]).

Definition w_eight_fields : world :=
  mkWorld true empty_store (Some [header; eight_fields; alice]).

Definition w_alice : world := mkWorld true empty_store (Some [header; alice]).

Definition w_no_file : world := mkWorld true empty_store None.

Definition w_1500 : world := mkWorld true empty_store (Some (header :: rows_1500)).

(** A file in which the mobile and the batch name of the first row come
    again. *)
Definition w_repeat : world :=
  mkWorld true empty_store (Some [header; alice; no_district; alice]).

Section Scripts.

(** Store-side constraints on the non-key columns: a record for which the
    test is [false] makes its bulk insert raise. *)
Variable teacher_ok : TeacherRec → bool.
Variable batch_ok : BatchRec → bool.
Variable link_ok : LinkRec → bool.

(** [str.isdigit] on one character (a table of the Unicode database). *)
Variable str_isdigit : char → bool.

(** The three statements of the scripts. *)
Definition executemany_teachers := executemany teacher_ok insert_teacher ExecTeachers.
Definition executemany_batches := executemany batch_ok insert_batch ExecBatches.
Definition executemany_links := executemany link_ok insert_link ExecLinks.

(** ** fast-import.py *)

(** Local variables of [import_data]. *)
Record locals := mkLocals {
  teacher_batch : list TeacherRec;
  batch_batch : list BatchRec;
  batch_teacher_batch : list LinkRec;
  unique_batches : gset str;
  count : nat }.

Definition batch_size : nat := 1000.

Definition init_locals : locals := mkLocals [] [] [] ∅ 0.

(** Lines 34-37: the phone number clean-up, [None] where the loop does
    [continue]. *)
Definition fast_mobile (phone_number : str) : option str :=
  let mobile := re_sub_non_digits phone_number in
  if bool_decide (length mobile < 10) || bool_decide (phone_number = py "null")
  then None
  else Some (take 10 mobile).

(** Lines 28-72: one row is turned into records appended to the buffers. *)
Definition accumulate_row (row : list str) (m : locals) : row_result locals :=
  if bool_decide (length row < 7) then Skipped
  else match row with
  | [district; batch_name; service_type; training_group;
     teacher_id; teacher_name; phone_number] =>
    match fast_mobile phone_number with
    | None => Skipped
    | Some mobile =>
      let clean_teacher_id := clean_id teacher_id in
      let fresh := truthy batch_name && bool_decide (batch_name ≠ py "null")
                   && bool_decide (batch_name ∉ unique_batches m) in
      let unique_batches' :=
        if fresh then unique_batches m ∪ {[batch_name]} else unique_batches m in
      let batch_batch' :=
        if fresh
        then batch_batch m ++
             [mkBatch batch_name district (py "Production Import")
                (str_or service_type (py "Primary"))
                (str_or training_group (py "Primary"))]
        else batch_batch m in
      let teacher_batch' :=
        teacher_batch m ++
        [mkTeacher clean_teacher_id teacher_name mobile district
           (str_or service_type (py "Primary"))
           (str_or training_group (py "Primary"))] in
      let batch_teacher_batch' :=
        if truthy batch_name && bool_decide (batch_name ≠ py "null")
        then batch_teacher_batch m ++ [mkLink batch_name mobile teacher_name district]
        else batch_teacher_batch m in
      Accepted (mkLocals teacher_batch' batch_batch' batch_teacher_batch'
                  unique_batches' (S (count m)))
    end
  | _ => Raised ValueError   (* too many values to unpack *)
  end.

(** Lines 75-88: any exception of the insert or of the commit is caught,
    the transaction rolled back and the buffer emptied. *)
Definition flush_teachers (m : locals) (c : connection) : locals * connection :=
  if bool_decide (batch_size ≤ length (teacher_batch m)) then
    (mkLocals [] (batch_batch m) (batch_teacher_batch m) (unique_batches m) (count m),
     try_commit (executemany_teachers (teacher_batch m) c))
  else (m, c).

(** Lines 90-102 *)
Definition flush_batches (m : locals) (c : connection) : locals * connection :=
  if bool_decide (50 ≤ length (batch_batch m)) then
    (mkLocals (teacher_batch m) [] (batch_teacher_batch m) (unique_batches m) (count m),
     try_commit (executemany_batches (batch_batch m) c))
  else (m, c).

(** Lines 104-116 *)
Definition flush_links (m : locals) (c : connection) : locals * connection :=
  if bool_decide (batch_size ≤ length (batch_teacher_batch m)) then
    (mkLocals (teacher_batch m) (batch_batch m) [] (unique_batches m) (count m),
     try_commit (executemany_links (batch_teacher_batch m) c))
  else (m, c).

(** Lines 75-116 *)
Definition flush_chunks (m : locals) (c : connection) : locals * connection :=
  let '(m1, c1) := flush_teachers m c in
  let '(m2, c2) := flush_batches m1 c1 in
  flush_links m2 c2.

(** The calls logged by each flush. *)
Definition teacher_flush_events (m : locals) : list event :=
  if bool_decide (batch_size ≤ length (teacher_batch m))
  then [ExecTeachers (teacher_batch m);
        if forallb teacher_ok (teacher_batch m) then Commit else Rollback]
  else [].

Definition batch_flush_events (m : locals) : list event :=
  if bool_decide (50 ≤ length (batch_batch m))
  then [ExecBatches (batch_batch m);
        if forallb batch_ok (batch_batch m) then Commit else Rollback]
  else [].

Definition link_flush_events (m : locals) : list event :=
  if bool_decide (batch_size ≤ length (batch_teacher_batch m))
  then [ExecLinks (batch_teacher_batch m);
        if forallb link_ok (batch_teacher_batch m) then Commit else Rollback]
  else [].

(** The buffers after the three flushes. *)
Definition flushed (m : locals) : locals :=
  mkLocals
    (if bool_decide (batch_size ≤ length (teacher_batch m)) then [] else teacher_batch m)
    (if bool_decide (50 ≤ length (batch_batch m)) then [] else batch_batch m)
    (if bool_decide (batch_size ≤ length (batch_teacher_batch m)) then []
     else batch_teacher_batch m)
    (unique_batches m) (count m).

(** Lines 27-116: the [for] loop over the rows after the header. *)
Fixpoint for_rows (rows : list (list str)) (m : locals) (c : connection)
    : option exn * locals * connection :=
  match rows with
  | [] => (None, m, c)
  | row :: rest =>
    match accumulate_row row m with
    | Skipped => for_rows rest m c
    | Raised e => (Some e, m, c)
    | Accepted m1 =>
      let '(m2, c2) := flush_chunks m1 c in
      for_rows rest m2 c2
    end
  end.

(** Lines 118-140: what is left in the buffers is inserted without a local
    handler, then committed once. *)
Definition final_flush (m : locals) : connection → option exn * connection :=
  in_one_transaction
    (when_nonempty executemany_teachers (teacher_batch m))
    (when_nonempty executemany_batches (batch_batch m))
    (when_nonempty executemany_links (batch_teacher_batch m)).

(** Lines 12-155: the body of the [try]. *)
Definition import_data_try (file : option (list (list str))) (c : connection)
    : option exn * connection :=
  match file with
  | None => (Some OSError, c)                 (* [open] raises *)
  | Some [] => (Some StopIteration, c)        (* [next(reader)] on an empty file *)
  | Some (header :: rows) =>
    match for_rows rows init_locals c with
    | (Some e, _, c1) => (Some e, c1)
    | (None, m, c1) => final_flush m c1
    end
  end.

(** Lines 7-165.  [psycopg2.connect] is outside the [try]: when it raises,
    the interpreter ends with status 1.  Inside, every exception is caught,
    reported and followed by a rollback; the function then returns and the
    interpreter ends with status 0. *)
Definition import_data (w : world) : exit :=
  if reachable w then
    let r := import_data_try (csv w) (connect (db w)) in
    let c := close (settle r) in
    mkExit 0 (committed c) (log c)
  else mkExit 1 (db w) [].

(** ** production-import.py *)

(** [clean_phone_number] *)
Definition clean_phone_number (phone : str) : option str :=
  if negb (truthy phone) || bool_decide (phone = py "null") then None
  else
    let digits := filter (λ ch, str_isdigit ch) phone in
    if bool_decide (10 ≤ length digits) then Some (take 10 digits) else None.

(** The value stored in [batch_data] under a batch name. *)
Record BatchInfo := mkInfo {
  i_district : str;
  i_service_type : str;
  i_training_group : str }.

(** [d[k] = v] on a dict, kept in insertion order. *)
Fixpoint dict_set {V} (k : str) (v : V) (d : list (str * V)) : list (str * V) :=
  match d with
  | [] => [(k, v)]
  | (k', v') :: d' => if bool_decide (k' = k) then (k, v) :: d' else (k', v') :: dict_set k v d'
  end.

(** [k in d] *)
Definition dict_mem {V} (k : str) (d : list (str * V)) : bool :=
  bool_decide (k ∈ d.*1).

(** Local variables of [import_production_data]. *)
Record plocals := mkPLocals {
  batch_data : list (str * BatchInfo);
  teacher_records : list TeacherRec;
  batch_teacher_records : list LinkRec }.

Definition init_plocals : plocals := mkPLocals [] [] [].

(** Lines 50-88: one row. *)
Definition store_row (row : list str) (m : plocals) : row_result plocals :=
  if bool_decide (length row < 7) then Skipped
  else match row with
  | [district; batch_name; service_type; training_group;
     teacher_id; teacher_name; phone_number] =>
    match clean_phone_number phone_number with
    | None | Some [] => Skipped     (* [if not mobile: continue] *)
    | Some mobile =>
      let clean_teacher_id := clean_id teacher_id in
      let batch_data' :=
        if truthy batch_name && bool_decide (batch_name ≠ py "null")
           && negb (dict_mem batch_name (batch_data m))
        then dict_set batch_name
               (mkInfo district (str_or service_type (py "Primary"))
                  (str_or training_group (py "Primary")))
               (batch_data m)
        else batch_data m in
      let teacher_records' :=
        teacher_records m ++
        [mkTeacher clean_teacher_id teacher_name mobile district
           (str_or service_type (py "Primary"))
           (str_or training_group (py "Primary"))] in
      let batch_teacher_records' :=
        if truthy batch_name && bool_decide (batch_name ≠ py "null")
        then batch_teacher_records m ++ [mkLink batch_name mobile teacher_name district]
        else batch_teacher_records m in
      Accepted (mkPLocals batch_data' teacher_records' batch_teacher_records')
    end
  | _ => Raised ValueError   (* too many values to unpack *)
  end.

(** Lines 49-91: the [for] loop over the rows after the header. *)
Fixpoint store_rows (rows : list (list str)) (m : plocals) : option exn * plocals :=
  match rows with
  | [] => (None, m)
  | row :: rest =>
    match store_row row m with
    | Skipped => store_rows rest m
    | Raised e => (Some e, m)
    | Accepted m1 => store_rows rest m1
    end
  end.

(** Lines 98-106 *)
Definition batch_values (d : list (str * BatchInfo)) : list BatchRec :=
  (λ kv, mkBatch kv.1 (i_district kv.2) (py "Production Import")
           (i_service_type kv.2) (i_training_group kv.2)) <$> d.

(** [range(0, stop, step)] for a positive step *)
Definition range0 (stop step : nat) : list nat :=
  (λ k, k * step) <$> seq 0 ((stop + step - 1) / step).

(** [l[i:i+n]] *)
Definition slice {A} (l : list A) (i n : nat) : list A := take n (drop i l).

(** Lines 120-126 and 135-141: a [for] loop of bulk inserts over the slices
    of a list; an insert that raises ends it. *)
Fixpoint insert_slices {R} (exec : list R → connection → bool * connection)
    (l : list R) (starts : list nat) (c : connection) : bool * connection :=
  match starts with
  | [] => (true, c)
  | i :: rest =>
    let '(ok, c1) := exec (slice l i batch_size) c in
    if ok then insert_slices exec l rest c1 else (false, c1)
  end.

(** Lines 96-149: the inserts and the single commit. *)
Definition insert_all (m : plocals) : connection → option exn * connection :=
  in_one_transaction
    (when_nonempty executemany_batches (batch_values (batch_data m)))
    (insert_slices executemany_teachers (teacher_records m)
       (range0 (length (teacher_records m)) batch_size))
    (insert_slices executemany_links (batch_teacher_records m)
       (range0 (length (batch_teacher_records m)) batch_size)).

(** Lines 36-164: the body of the [try]. *)
Definition import_production_data_try (file : option (list (list str)))
    (c : connection) : option exn * connection :=
  match file with
  | None => (Some OSError, c)                 (* [open] raises *)
  | Some [] => (Some StopIteration, c)        (* [next(reader)] on an empty file *)
  | Some (header :: rows) =>
    match store_rows rows init_plocals with
    | (Some e, _) => (Some e, c)
    | (None, m) => insert_all m c
    end
  end.

(** Lines 27-175.  The handler rolls back and calls [sys.exit(1)]; the
    [finally] clause closes the connection on both paths. *)
Definition import_production_data (w : world) : exit :=
  if reachable w then
    let r := import_production_data_try (csv w) (connect (db w)) in
    let c := close (settle r) in
    mkExit (match r.1 with Some _ => 1 | None => 0 end) (committed c) (log c)
  else mkExit 1 (db w) [].

(** ** Rows that pass validation *)

Definition phone_of (row : list str) : str := default [] (row !! 6).

(** Seven fields and a phone number the loop of [import_data] accepts. *)
Definition fast_valid (row : list str) : bool :=
  bool_decide (length row = 7) && bool_decide (is_Some (fast_mobile (phone_of row))).

(** Seven fields and a phone number [clean_phone_number] accepts. *)
Definition prod_valid (row : list str) : bool :=
  bool_decide (length row = 7) && bool_decide (is_Some (clean_phone_number (phone_of row))).


(** The calls of one round of flushes. *)
Definition flush_events (m : locals) : list event :=
  teacher_flush_events m ++ batch_flush_events m ++ link_flush_events m.


(** The bulk inserts [insert_all] makes when none of them raises. *)
Definition planned_inserts (m : plocals) : list event :=
  (if truthy_list (batch_values (batch_data m))
   then [ExecBatches (batch_values (batch_data m))] else []) ++
  ((λ i, ExecTeachers (slice (teacher_records m) i batch_size)) <$>
     range0 (length (teacher_records m)) batch_size) ++
  ((λ i, ExecLinks (slice (batch_teacher_records m) i batch_size)) <$>
     range0 (length (batch_teacher_records m)) batch_size).

(** The entry that ends the log of a [try] body: the commit of the body,
    or the rollback of the handler. *)
Definition closing (e : option exn) : event :=
  match e with None => Commit | Some _ => Rollback end.

(** The row passes validation and carries the batch name [name]. *)
Definition fast_refers (name : str) (row : list str) : bool :=
  fast_valid row && bool_decide (row !! 1 = Some name).

Definition prod_refers (name : str) (row : list str) : bool :=
  prod_valid row && bool_decide (row !! 1 = Some name).

(** The Batch record both loops build from a row. *)
Definition batch_of_row (row : list str) : BatchRec :=
  mkBatch (default [] (row !! 1)) (default [] (row !! 0)) (py "Production Import")
    (str_or (default [] (row !! 2)) (py "Primary"))
    (str_or (default [] (row !! 3)) (py "Primary")).

(** The Batch record of the first row of the list, if there is one. *)
Definition first_batch (rows : list (list str)) : list BatchRec :=
  match head rows with Some row => [batch_of_row row] | None => [] end.

(** The bulk insert of the log entry raises. *)
Definition raises (e : event) : bool :=
  match e with
  | ExecTeachers recs => negb (forallb teacher_ok recs)
  | ExecBatches recs => negb (forallb batch_ok recs)
  | ExecLinks recs => negb (forallb link_ok recs)
  | _ => false
  end.

(** No bulk insert of the log raises. *)
Definition quiet (evs : list event) : Prop := existsb raises evs = false.

(** From [c] to [c'] the calls [evs] were logged and nothing was committed;
    if none of them raised, all their rows are in the open transaction. *)
Definition staged (evs : list event) (c c' : connection) : Prop :=
  log c' = log c ++ evs ∧
  committed c' = committed c ∧
  (quiet evs → working c' = apply_ops (ops_of evs) (working c)).

(** From [c] to [c'] the calls [evs] were logged and the open transaction
    of [c'] holds nothing; if none of them raised, all their rows are
    committed. *)
Definition settled (evs : list event) (c c' : connection) : Prop :=
  log c' = log c ++ evs ∧
  working c' = committed c' ∧
  (quiet evs → committed c' = apply_ops (ops_of evs) (committed c)).

(** A step that raises exactly when one of its calls [evs] does. *)
Definition staged_step (f : connection → bool * connection) (evs : list event) : Prop :=
  ∀ c, (f c).1 = negb (existsb raises evs) ∧ staged evs c (f c).2.

(** What a table is to the lemmas on bulk inserts: its constraint, its
    one-row insert, the insert as data, its log entry. *)
Definition table {R} (ok : R → bool) (ins : R → store → store) (mk : R → op)
    (ev : list R → event) : Prop :=
  (∀ r w, ins r w = apply_op (mk r) w) ∧
  (∀ l, raises (ev l) = negb (forallb ok l)) ∧
  (∀ l, ops_of_event (ev l) = mk <$> l).

(** The bulk inserts of the final flush of [import_data] when none raises. *)
Definition final_inserts (m : locals) : list event :=
  (if truthy_list (teacher_batch m) then [ExecTeachers (teacher_batch m)] else []) ++
  (if truthy_list (batch_batch m) then [ExecBatches (batch_batch m)] else []) ++
  (if truthy_list (batch_teacher_batch m)
   then [ExecLinks (batch_teacher_batch m)] else []).

(** The Teacher record and the Link record both loops build from a row,
    [norm] being the phone clean-up of the script; [None] for a row that is
    skipped. *)
Definition row_teacher (norm : str → option str) (row : list str) : option TeacherRec :=
  if bool_decide (length row = 7) then
    (λ mobile,
       mkTeacher (clean_id (default [] (row !! 4))) (default [] (row !! 5)) mobile
         (default [] (row !! 0))
         (str_or (default [] (row !! 2)) (py "Primary"))
         (str_or (default [] (row !! 3)) (py "Primary"))) <$> norm (phone_of row)
  else None.

Definition row_link (norm : str → option str) (row : list str) : option LinkRec :=
  if bool_decide (length row = 7) && bool_decide (named (default [] (row !! 1))) then
    (λ mobile,
       mkLink (default [] (row !! 1)) mobile (default [] (row !! 5))
         (default [] (row !! 0))) <$> norm (phone_of row)
  else None.

(** ** Properties *)

(** Drops the parameters of the section from a goal that does not mention
    them, so that the solvers leave them alone. *)
Ltac no_params :=
  try clear teacher_ok; try clear batch_ok; try clear link_ok; try clear str_isdigit.

(** *** Phone numbers *)

Lemma take_10_length {A} (l : list A) : 10 ≤ length l → length (take 10 l) = 10.
Proof. intros H. rewrite length_take. lia. Qed.

Lemma fast_mobile_eq (raw : str) :
  fast_mobile raw =
  if decide (raw = py "null" ∨ length (filter is_0_9 raw) < 10) then None
  else Some (take 10 (filter is_0_9 raw)).
Proof.
  unfold fast_mobile, re_sub_non_digits.
  destruct (decide (length (filter is_0_9 raw) < 10)) as [Hlt|Hge].
  - rewrite (bool_decide_eq_true_2 _ Hlt). simpl. by rewrite decide_True; [|right].
  - rewrite (bool_decide_eq_false_2 _ Hge). simpl.
    destruct (decide (raw = py "null")) as [Hn|Hn].
    + rewrite (bool_decide_eq_true_2 _ Hn). by rewrite decide_True; [|left].
    + rewrite (bool_decide_eq_false_2 _ Hn). rewrite decide_False; [done|]. tauto.
Qed.

Lemma clean_phone_number_eq (raw : str) :
  clean_phone_number raw =
  if decide (raw = py "null" ∨ length (filter (λ ch, str_isdigit ch) raw) < 10) then None
  else Some (take 10 (filter (λ ch, str_isdigit ch) raw)).
Proof.
  unfold clean_phone_number.
  destruct raw as [|ch raw].
  - cbn [truthy negb orb]. rewrite decide_True; [done|]. right. simpl. lia.
  - cbn [truthy negb orb].
    destruct (decide (ch :: raw = py "null")) as [Hn|Hn].
    + rewrite (bool_decide_eq_true_2 _ Hn). by rewrite decide_True; [|left].
    + rewrite (bool_decide_eq_false_2 _ Hn).
      destruct (decide (10 ≤ length (filter (λ ch0, str_isdigit ch0) (ch :: raw)))) as [Hge|Hlt].
      * rewrite (bool_decide_eq_true_2 _ Hge). rewrite decide_False; [done|].
        intros [?|?]; [done|lia].
      * rewrite (bool_decide_eq_false_2 _ Hlt). rewrite decide_True; [done|]. right. lia.
Qed.

Lemma fast_mobile_Some (raw mobile : str) :
  fast_mobile raw = Some mobile →
  mobile = take 10 (filter is_0_9 raw) ∧ length mobile = 10 ∧ Forall is_0_9 mobile.
Proof.
  rewrite fast_mobile_eq. case_decide as H; [done|]. intros [= <-].
  split; [done|]. split.
  - apply take_10_length. lia.
  - apply Forall_take, Forall_forall. by intros c [? _]%list_elem_of_filter.
Qed.

Lemma clean_phone_number_Some (raw mobile : str) :
  clean_phone_number raw = Some mobile →
  mobile = take 10 (filter (λ ch, str_isdigit ch) raw) ∧ length mobile = 10 ∧
  Forall (λ ch, str_isdigit ch) mobile.
Proof.
  rewrite clean_phone_number_eq. case_decide as H; [done|]. intros [= <-].
  split; [done|]. split.
  - apply take_10_length. lia.
  - apply Forall_take, Forall_forall. by intros c [? _]%list_elem_of_filter.
Qed.

(** C2.  Phone normalisation, in both scripts: the characters that are not
    digits are removed; the input is rejected when it is the literal "null"
    or when fewer than 10 digits are left; otherwise the result is the
    first 10 digits left.  The input "12345" is rejected, and a row that
    carries it adds nothing to any buffer. *)
Theorem phone_normalisation (raw : str) :
  (fast_mobile raw =
     if decide (raw = py "null" ∨ length (filter is_0_9 raw) < 10) then None
     else Some (take 10 (filter is_0_9 raw))) ∧
  (clean_phone_number raw =
     if decide (raw = py "null" ∨ length (filter (λ ch, str_isdigit ch) raw) < 10) then None
     else Some (take 10 (filter (λ ch, str_isdigit ch) raw))) ∧
  match fast_mobile raw with
  | Some mobile => length mobile = 10 ∧ Forall is_0_9 mobile
  | None => True
  end ∧
  match clean_phone_number raw with
  | Some mobile => length mobile = 10 ∧ Forall (λ ch, str_isdigit ch) mobile
  | None => True
  end ∧
  fast_mobile (py "12345") = None ∧
  clean_phone_number (py "12345") = None ∧
  (∀ district batch_name service_type training_group teacher_id teacher_name m pm,
     accumulate_row [district; batch_name; service_type; training_group;
                     teacher_id; teacher_name; py "12345"] m = Skipped ∧
     store_row [district; batch_name; service_type; training_group;
                teacher_id; teacher_name; py "12345"] pm = Skipped).
Proof.
  assert (H5 : clean_phone_number (py "12345") = None).
  { rewrite clean_phone_number_eq. rewrite decide_True; [done|]. right.
    pose proof (length_filter (λ ch, str_isdigit ch) (py "12345")) as Hle.
    change (length (py "12345")) with 5 in Hle. lia. }
  split; [apply fast_mobile_eq|]. split; [apply clean_phone_number_eq|].
  split; [|split; [|split; [|split]]].
  - destruct (fast_mobile raw) eqn:E; [|done]. by apply fast_mobile_Some in E as (_ & ? & ?).
  - destruct (clean_phone_number raw) eqn:E; [|done].
    by apply clean_phone_number_Some in E as (_ & ? & ?).
  - reflexivity.
  - exact H5.
  - intros. split; [reflexivity|].
    unfold store_row. rewrite bool_decide_eq_false_2; [|cbn [length]; lia].
    by rewrite H5.
Qed.

(** *** One row *)

(** The test [batch_name and batch_name != 'null'] of both loops. *)
Lemma names_batch_decide (batch_name : str) :
  truthy batch_name && bool_decide (batch_name ≠ py "null") =
  bool_decide (batch_name ≠ [] ∧ batch_name ≠ py "null").
Proof.
  destruct batch_name as [|ch b].
  { cbn [truthy andb]. symmetry. apply bool_decide_eq_false_2. by intros [? _]. }
  cbn [truthy andb]. apply bool_decide_ext. split; [by intros ?|by intros [_ ?]].
Qed.

Lemma accumulate_row_7 district batch_name service_type training_group
    teacher_id teacher_name phone_number (m : locals) :
  accumulate_row [district; batch_name; service_type; training_group;
                  teacher_id; teacher_name; phone_number] m =
  match fast_mobile phone_number with
  | None => Skipped
  | Some mobile =>
    let named := bool_decide (batch_name ≠ [] ∧ batch_name ≠ py "null") in
    let fresh := named && bool_decide (batch_name ∉ unique_batches m) in
    Accepted (mkLocals
      (teacher_batch m ++
       [mkTeacher (clean_id teacher_id) teacher_name mobile district
          (str_or service_type (py "Primary")) (str_or training_group (py "Primary"))])
      (if fresh
       then batch_batch m ++
            [mkBatch batch_name district (py "Production Import")
               (str_or service_type (py "Primary")) (str_or training_group (py "Primary"))]
       else batch_batch m)
      (if named
       then batch_teacher_batch m ++ [mkLink batch_name mobile teacher_name district]
       else batch_teacher_batch m)
      (if fresh then unique_batches m ∪ {[batch_name]} else unique_batches m)
      (S (count m)))
  end.
Proof.
  unfold accumulate_row. rewrite bool_decide_eq_false_2; [|cbn [length]; lia].
  destruct (fast_mobile phone_number); [|done].
  by rewrite names_batch_decide.
Qed.

Lemma store_row_7 district batch_name service_type training_group
    teacher_id teacher_name phone_number (m : plocals) :
  store_row [district; batch_name; service_type; training_group;
             teacher_id; teacher_name; phone_number] m =
  match clean_phone_number phone_number with
  | None => Skipped
  | Some mobile =>
    let named := bool_decide (batch_name ≠ [] ∧ batch_name ≠ py "null") in
    Accepted (mkPLocals
      (if named && negb (dict_mem batch_name (batch_data m))
       then dict_set batch_name
              (mkInfo district (str_or service_type (py "Primary"))
                 (str_or training_group (py "Primary")))
              (batch_data m)
       else batch_data m)
      (teacher_records m ++
       [mkTeacher (clean_id teacher_id) teacher_name mobile district
          (str_or service_type (py "Primary")) (str_or training_group (py "Primary"))])
      (if named
       then batch_teacher_records m ++ [mkLink batch_name mobile teacher_name district]
       else batch_teacher_records m))
  end.
Proof.
  unfold store_row. rewrite bool_decide_eq_false_2; [|cbn [length]; lia].
  destruct (clean_phone_number phone_number) as [mobile|] eqn:E; [|done].
  apply clean_phone_number_Some in E as (_ & Hlen & _).
  destruct mobile; [done|].
  by rewrite names_batch_decide.
Qed.

Lemma short_row_skipped (row : list str) (m : locals) (pm : plocals) :
  length row < 7 → accumulate_row row m = Skipped ∧ store_row row pm = Skipped.
Proof.
  intros H. unfold accumulate_row, store_row. by rewrite bool_decide_eq_true_2.
Qed.

Lemma long_row_raises (row : list str) (m : locals) (pm : plocals) :
  7 < length row →
  accumulate_row row m = Raised ValueError ∧ store_row row pm = Raised ValueError.
Proof.
  intros H. unfold accumulate_row, store_row.
  rewrite bool_decide_eq_false_2; [|lia].
  do 8 (destruct row as [|? row]; [cbn [length] in H; lia|]). done.
Qed.

(** C8.  A row that passes the phone check gives one Teacher record; it
    gives a Link record exactly when its batch name is non-empty and not
    the literal "null", whatever the set of batch names already seen holds.
    In both scripts. *)
Theorem teacher_and_link_candidates district batch_name service_type
    training_group teacher_id teacher_name phone_number (m : locals) (pm : plocals) :
  let row := [district; batch_name; service_type; training_group;
              teacher_id; teacher_name; phone_number] in
  let teacher mobile :=
    mkTeacher (clean_id teacher_id) teacher_name mobile district
      (str_or service_type (py "Primary")) (str_or training_group (py "Primary")) in
  let links mobile :=
    if decide (batch_name ≠ [] ∧ batch_name ≠ py "null")
    then [mkLink batch_name mobile teacher_name district] else [] in
  match fast_mobile phone_number with
  | Some mobile =>
    ∃ m', accumulate_row row m = Accepted m' ∧
          teacher_batch m' = teacher_batch m ++ [teacher mobile] ∧
          batch_teacher_batch m' = batch_teacher_batch m ++ links mobile
  | None => accumulate_row row m = Skipped
  end ∧
  match clean_phone_number phone_number with
  | Some mobile =>
    ∃ pm', store_row row pm = Accepted pm' ∧
           teacher_records pm' = teacher_records pm ++ [teacher mobile] ∧
           batch_teacher_records pm' = batch_teacher_records pm ++ links mobile
  | None => store_row row pm = Skipped
  end.
Proof.
  intros row teacher links. subst row. split.
  - rewrite accumulate_row_7. destruct (fast_mobile phone_number) as [mobile|]; [|done].
    eexists. split; [done|]. cbn -[py]. split; [done|]. subst links. cbn beta.
    case_decide as H.
    + by rewrite (bool_decide_eq_true_2 _ H).
    + rewrite (bool_decide_eq_false_2 _ H). by rewrite app_nil_r.
  - rewrite store_row_7. destruct (clean_phone_number phone_number) as [mobile|]; [|done].
    eexists. split; [done|]. cbn -[py]. split; [done|]. subst links. cbn beta.
    case_decide as H.
    + by rewrite (bool_decide_eq_true_2 _ H).
    + rewrite (bool_decide_eq_false_2 _ H). by rewrite app_nil_r.
Qed.

(** *** Skip-on-conflict inserts *)

Lemma insert_teacher_lookup (r : TeacherRec) (w : store) (k : str) :
  is_Some (teachers w !! k) → teachers (insert_teacher r w) !! k = teachers w !! k.
Proof.
  intros Hk. unfold insert_teacher.
  destruct (teachers w !! t_mobile r) eqn:E; [done|]. cbn.
  rewrite lookup_insert_ne; [done|]. intros Heq. rewrite Heq in E.
  rewrite E in Hk. by destruct Hk.
Qed.

Lemma insert_teacher_dom (r : TeacherRec) (w : store) :
  dom (teachers (insert_teacher r w)) = dom (teachers w) ∪ {[t_mobile r]}.
Proof.
  no_params. unfold insert_teacher. destruct (teachers w !! t_mobile r) eqn:E.
  - apply (elem_of_dom_2 (D := gset str)) in E. set_solver.
  - cbn. rewrite dom_insert_L. set_solver.
Qed.

Lemma bulk_insert_teachers_keeps (recs : list TeacherRec) (w : store) (k : str) :
  is_Some (teachers w !! k) →
  teachers (bulk_insert teacher_ok insert_teacher recs w).2 !! k = teachers w !! k.
Proof.
  revert w. induction recs as [|r recs IH]; intros w Hk; [done|].
  cbn. destruct (teacher_ok r); [|done].
  rewrite IH; rewrite insert_teacher_lookup; done.
Qed.

Lemma bulk_insert_teachers_dom (recs : list TeacherRec) (w : store) :
  (bulk_insert teacher_ok insert_teacher recs w).1 = true →
  dom (teachers (bulk_insert teacher_ok insert_teacher recs w).2) =
  dom (teachers w) ∪ list_to_set (t_mobile <$> recs).
Proof.
  revert w. induction recs as [|r recs IH]; intros w Hok.
  - cbn. clear. set_solver.
  - cbn in *. destruct (teacher_ok r); [|done].
    rewrite IH by done. rewrite insert_teacher_dom. clear. set_solver.
Qed.

(** C10.  No check against the mobiles already buffered is made: a row that
    passes validation adds one Teacher record to the buffer, so the number
    of buffered records with its mobile grows by one.  Uniqueness comes
    from the insert: a row whose mobile is in the table is left as it is,
    and after a bulk insert that returns, the mobiles in the table are the
    former ones and those of the records. *)
Theorem teachers_not_deduplicated district batch_name service_type
    training_group teacher_id teacher_name phone_number (m : locals) (pm : plocals)
    (recs : list TeacherRec) (w : store) :
  let row := [district; batch_name; service_type; training_group;
              teacher_id; teacher_name; phone_number] in
  let same mobile (l : list TeacherRec) := length (filter (λ t, t_mobile t = mobile) l) in
  match fast_mobile phone_number with
  | Some mobile =>
    ∃ m' t, accumulate_row row m = Accepted m' ∧
            teacher_batch m' = teacher_batch m ++ [t] ∧ t_mobile t = mobile ∧
            same mobile (teacher_batch m') = S (same mobile (teacher_batch m))
  | None => True
  end ∧
  match clean_phone_number phone_number with
  | Some mobile =>
    ∃ pm' t, store_row row pm = Accepted pm' ∧
             teacher_records pm' = teacher_records pm ++ [t] ∧ t_mobile t = mobile ∧
             same mobile (teacher_records pm') = S (same mobile (teacher_records pm))
  | None => True
  end ∧
  let '(ok, w') := bulk_insert teacher_ok insert_teacher recs w in
  (∀ k, is_Some (teachers w !! k) → teachers w' !! k = teachers w !! k) ∧
  (ok = true → dom (teachers w') = dom (teachers w) ∪ list_to_set (t_mobile <$> recs)).
Proof.
  intros row same. subst row. split; [|split].
  - rewrite accumulate_row_7. destruct (fast_mobile phone_number) as [mobile|]; [|done].
    eexists _, _. split; [done|]. cbn -[py]. split; [done|]. split; [done|].
    subst same. cbn beta. rewrite filter_app, length_app, filter_cons_True by done.
    cbn. lia.
  - rewrite store_row_7. destruct (clean_phone_number phone_number) as [mobile|]; [|done].
    eexists _, _. split; [done|]. cbn -[py]. split; [done|]. split; [done|].
    subst same. cbn beta. rewrite filter_app, length_app, filter_cons_True by done.
    cbn. lia.
  - destruct (bulk_insert teacher_ok insert_teacher recs w) as [ok w'] eqn:E. split.
    + intros k Hk. pose proof (bulk_insert_teachers_keeps recs w k Hk) as H.
      by rewrite E in H.
    + intros ->. pose proof (bulk_insert_teachers_dom recs w) as H.
      rewrite E in H. by apply H.
Qed.

(** *** Transactions *)

Lemma apply_ops_app (o1 o2 : list op) (s : store) :
  apply_ops (o1 ++ o2) s = apply_ops o2 (apply_ops o1 s).
Proof. apply foldl_app. Qed.

Lemma pending_refl (c : connection) : pending [] [] c c.
Proof. unfold pending. by rewrite app_nil_r. Qed.

Lemma pending_trans o1 e1 o2 e2 (c c' c'' : connection) :
  pending o1 e1 c c' → pending o2 e2 c' c'' → pending (o1 ++ o2) (e1 ++ e2) c c''.
Proof.
  intros (H1 & H2 & H3) (H4 & H5 & H6). unfold pending.
  rewrite H4, H1, H5, H2, H6, H3, apply_ops_app, app_assoc. done.
Qed.

Lemma advances_refl (c : connection) : clean c → advances [] [] c c.
Proof. intros H. unfold advances. by rewrite app_nil_r. Qed.

Lemma advances_trans o1 e1 o2 e2 (c c' c'' : connection) :
  advances o1 e1 c c' → advances o2 e2 c' c'' → advances (o1 ++ o2) (e1 ++ e2) c c''.
Proof.
  intros (H1 & H2 & H3) (H4 & H5 & H6). unfold advances.
  rewrite H4, H1, H5, H4, H1, H6, H3, apply_ops_app, app_assoc. done.
Qed.

Lemma advances_clean ops evs (c c' : connection) : advances ops evs c c' → clean c'.
Proof. by intros (_ & ? & _). Qed.

Lemma pending_commit ops evs (c c' : connection) :
  clean c → pending ops evs c c' → advances ops (evs ++ [Commit]) c (commit c').
Proof.
  unfold clean, pending, advances, commit. intros Hc (H1 & H2 & H3). cbn.
  rewrite H2, H3, Hc, app_assoc. done.
Qed.

Lemma pending_rollback ops evs (c c' : connection) :
  clean c → pending ops evs c c' → advances [] (evs ++ [Rollback]) c (rollback c').
Proof.
  unfold clean, pending, advances, rollback. intros Hc (H1 & H2 & H3). cbn.
  rewrite H1, H3, app_assoc. done.
Qed.

Lemma bulk_insert_ops {R} (ok : R → bool) (ins : R → store → store)
    (mk : R → op) (recs : list R) :
  (∀ r w, ins r w = apply_op (mk r) w) →
  ∃ ops, ∀ w, bulk_insert ok ins recs w = (forallb ok recs, apply_ops ops w).
Proof.
  intros Hmk. induction recs as [|r recs [ops IH]].
  - by exists [].
  - cbn [bulk_insert forallb]. destruct (ok r).
    + exists (mk r :: ops). intros w. by rewrite IH, Hmk.
    + by exists [].
Qed.

Lemma executemany_pending {R} (ok : R → bool) (ins : R → store → store)
    (mk : R → op) (ev : list R → event) (recs : list R) :
  (∀ r w, ins r w = apply_op (mk r) w) →
  ∃ ops, ∀ c,
    (executemany ok ins ev recs c).1 = forallb ok recs ∧
    pending ops [ev recs] c (executemany ok ins ev recs c).2.
Proof.
  intros Hmk. destruct (bulk_insert_ops ok ins mk recs Hmk) as [ops Hops].
  exists ops. intros c. unfold executemany, pending. by rewrite Hops.
Qed.

Lemma try_commit_log {R} (ok : R → bool) (ins : R → store → store)
    (ev : list R → event) (recs : list R) (c : connection) :
  log (try_commit (executemany ok ins ev recs c)) =
  log c ++ [ev recs; if forallb ok recs then Commit else Rollback].
Proof.
  unfold try_commit, executemany.
  destruct (bulk_insert ok ins recs (working c)) as [b w] eqn:E.
  assert (b = forallb ok recs) as ->.
  { clear -E. revert c b w E. induction recs as [|r recs IH]; intros c b w E.
    - by injection E as <- _.
    - cbn in *. destruct (ok r); [|by injection E as <- _].
      by apply (IH (mkConn (committed c) (ins r (working c)) (log c)) b w). }
  cbn. destruct (forallb ok recs); cbn; by rewrite <-app_assoc.
Qed.

Lemma try_commit_advances {R} (ok : R → bool) (ins : R → store → store)
    (mk : R → op) (ev : list R → event) (recs : list R) :
  (∀ r w, ins r w = apply_op (mk r) w) →
  ∃ ops evs, ∀ c,
    clean c → advances ops evs c (try_commit (executemany ok ins ev recs c)).
Proof.
  intros Hmk. destruct (executemany_pending ok ins mk ev recs Hmk) as [ops Hops].
  destruct (forallb ok recs) eqn:E.
  - exists ops, ([ev recs] ++ [Commit]). intros c Hc. destruct (Hops c) as [H1 H2].
    unfold try_commit. rewrite H1. by apply pending_commit.
  - exists [], ([ev recs] ++ [Rollback]). intros c Hc. destruct (Hops c) as [H1 H2].
    unfold try_commit. rewrite H1. by apply (pending_rollback ops).
Qed.


(** *** The chunked flushes of fast-import *)

Lemma op_teacher r w : insert_teacher r w = apply_op (OpTeacher r) w.
Proof. done. Qed.
Lemma op_batch r w : insert_batch r w = apply_op (OpBatch r) w.
Proof. done. Qed.
Lemma op_link r w : insert_link r w = apply_op (OpLink r) w.
Proof. done. Qed.

Lemma flush_teachers_log m c :
  log (flush_teachers m c).2 = log c ++ teacher_flush_events m.
Proof.
  unfold flush_teachers, teacher_flush_events. case_bool_decide; cbn [snd].
  - apply try_commit_log.
  - by rewrite app_nil_r.
Qed.

Lemma flush_batches_log m c :
  log (flush_batches m c).2 = log c ++ batch_flush_events m.
Proof.
  unfold flush_batches, batch_flush_events. case_bool_decide; cbn [snd].
  - apply try_commit_log.
  - by rewrite app_nil_r.
Qed.

Lemma flush_links_log m c :
  log (flush_links m c).2 = log c ++ link_flush_events m.
Proof.
  unfold flush_links, link_flush_events. case_bool_decide; cbn [snd].
  - apply try_commit_log.
  - by rewrite app_nil_r.
Qed.

Lemma flush_teachers_advances m :
  ∃ ops evs, ∀ c, clean c → advances ops evs c (flush_teachers m c).2.
Proof.
  unfold flush_teachers. case_bool_decide; cbn [snd].
  - apply (try_commit_advances _ _ OpTeacher), op_teacher.
  - exists [], []. apply advances_refl.
Qed.

Lemma flush_batches_advances m :
  ∃ ops evs, ∀ c, clean c → advances ops evs c (flush_batches m c).2.
Proof.
  unfold flush_batches. case_bool_decide; cbn [snd].
  - apply (try_commit_advances _ _ OpBatch), op_batch.
  - exists [], []. apply advances_refl.
Qed.

Lemma flush_links_advances m :
  ∃ ops evs, ∀ c, clean c → advances ops evs c (flush_links m c).2.
Proof.
  unfold flush_links. case_bool_decide; cbn [snd].
  - apply (try_commit_advances _ _ OpLink), op_link.
  - exists [], []. apply advances_refl.
Qed.

Lemma flush_chunks_fst m c : (flush_chunks m c).1 = flushed m.
Proof.
  unfold flush_chunks, flush_teachers, flush_batches, flush_links, flushed.
  destruct m as [tb bb lb ub n]. cbn [teacher_batch batch_batch batch_teacher_batch
    unique_batches count].
  repeat (case_bool_decide; cbn [fst teacher_batch batch_batch batch_teacher_batch
    unique_batches count]); done.
Qed.

Lemma flush_chunks_log m c :
  log (flush_chunks m c).2 = log c ++ flush_events m.
Proof.
  unfold flush_chunks, flush_events.
  pose proof (flush_teachers_log m c) as H1.
  destruct (flush_teachers m c) as [m1 c1] eqn:E1.
  pose proof (flush_batches_log m1 c1) as H2.
  destruct (flush_batches m1 c1) as [m2 c2] eqn:E2.
  rewrite flush_links_log. cbn [snd] in *. rewrite H2, H1, <-!app_assoc.
  assert (batch_flush_events m1 = batch_flush_events m) as ->.
  { revert E1. unfold flush_teachers, batch_flush_events.
    case_bool_decide; by intros [= <- _]. }
  assert (link_flush_events m2 = link_flush_events m) as ->; [|done].
  revert E1 E2. unfold flush_teachers, flush_batches, link_flush_events.
  repeat case_bool_decide; intros [= <- _] [= <- _]; done.
Qed.

Lemma flush_teachers_fst_indep m c c' :
  (flush_teachers m c).1 = (flush_teachers m c').1.
Proof. unfold flush_teachers. by destruct (bool_decide _). Qed.

Lemma flush_batches_fst_indep m c c' :
  (flush_batches m c).1 = (flush_batches m c').1.
Proof. unfold flush_batches. by destruct (bool_decide _). Qed.

Lemma flush_chunks_advances m :
  ∃ ops evs, ∀ c, clean c → advances ops evs c (flush_chunks m c).2.
Proof.
  unfold flush_chunks.
  destruct (flush_teachers_advances m) as (o1 & e1 & H1).
  set (m1 := (flush_teachers m (connect empty_store)).1).
  destruct (flush_batches_advances m1) as (o2 & e2 & H2).
  set (m2 := (flush_batches m1 (connect empty_store)).1).
  destruct (flush_links_advances m2) as (o3 & e3 & H3).
  exists (o1 ++ o2 ++ o3), (e1 ++ e2 ++ e3). intros c Hc.
  specialize (H1 c Hc).
  pose proof (flush_teachers_fst_indep m c (connect empty_store)) as E1.
  destruct (flush_teachers m c) as [m1' c1]. cbn [fst snd] in H1, E1. subst m1'.
  fold m1. specialize (H2 c1 (advances_clean _ _ _ _ H1)).
  pose proof (flush_batches_fst_indep m1 c1 (connect empty_store)) as E2.
  destruct (flush_batches m1 c1) as [m2' c2]. cbn [fst snd] in H2, E2. subst m2'.
  fold m2. specialize (H3 c2 (advances_clean _ _ _ _ H2)).
  eapply advances_trans; [done|]. eapply advances_trans; done.
Qed.

(** *** The row loop of fast-import *)

Lemma for_rows_advances rows m :
  ∃ e m' ops evs, ∀ c,
    clean c → (for_rows rows m c).1 = (e, m') ∧ advances ops evs c (for_rows rows m c).2.
Proof.
  revert m. induction rows as [|row rows IH]; intros m.
  - exists None, m, [], []. intros c Hc. split; [done|]. by apply advances_refl.
  - cbn [for_rows]. destruct (accumulate_row row m) as [|e|m1].
    + apply IH.
    + exists (Some e), m, [], []. intros c Hc. split; [done|]. by apply advances_refl.
    + destruct (flush_chunks_advances m1) as (o1 & e1 & H1).
      destruct (IH (flushed m1)) as (e & m' & o2 & e2 & H2).
      exists e, m', (o1 ++ o2), (e1 ++ e2). intros c Hc.
      specialize (H1 c Hc). pose proof (flush_chunks_fst m1 c) as Hf.
      destruct (flush_chunks m1 c) as [m2 c2]. cbn [fst snd] in *. subst m2.
      destruct (H2 c2 (advances_clean _ _ _ _ H1)) as [H3 H4].
      split; [done|]. eapply advances_trans; done.
Qed.

Lemma for_rows_no_raise rows m c :
  Forall (λ row : list str, length row ≤ 7) rows → (for_rows rows m c).1.1 = None.
Proof.
  intros Hrows. revert m c. induction Hrows as [|row rows Hrow _ IH]; intros m c; [done|].
  cbn [for_rows]. destruct (accumulate_row row m) as [|e|m1] eqn:E.
  - apply IH.
  - exfalso. destruct (decide (length row < 7)) as [Hlt|Hge].
    + unfold accumulate_row in E. by rewrite bool_decide_eq_true_2 in E.
    + assert (length row = 7) as H7 by lia.
      do 8 (destruct row as [|? row]; [try done|]); [|done].
      rewrite accumulate_row_7 in E. by destruct (fast_mobile _).
  - destruct (flush_chunks m1 c). apply IH.
Qed.

(** *** Thresholds *)

Lemma accumulate_row_Accepted row m m1 :
  accumulate_row row m = Accepted m1 →
  ∃ district batch_name service_type training_group teacher_id teacher_name
    phone_number mobile,
    row = [district; batch_name; service_type; training_group;
           teacher_id; teacher_name; phone_number] ∧
    fast_mobile phone_number = Some mobile.
Proof.
  intros E. destruct (decide (length row < 7)) as [Hlt|Hge].
  { unfold accumulate_row in E. by rewrite bool_decide_eq_true_2 in E. }
  destruct (decide (7 < length row)) as [Hgt|Hle].
  { unfold accumulate_row in E. rewrite bool_decide_eq_false_2 in E by done.
    do 8 (destruct row as [|? row]; [cbn [length] in Hgt; lia|]). done. }
  do 8 (destruct row as [|? row]; [try (cbn [length] in Hge; lia)|]);
    [|cbn [length] in Hle; lia].
  rewrite accumulate_row_7 in E.
  destruct (fast_mobile _) as [mobile|] eqn:Hm; [|done]. by eexists _, _, _, _, _, _, _, _.
Qed.




(** *** The chunks handed to the statements *)

Lemma teacher_chunks_app l1 l2 :
  teacher_chunks (l1 ++ l2) = teacher_chunks l1 ++ teacher_chunks l2.
Proof. apply omap_app. Qed.

Lemma batch_chunks_app l1 l2 :
  batch_chunks (l1 ++ l2) = batch_chunks l1 ++ batch_chunks l2.
Proof. apply omap_app. Qed.

Lemma link_chunks_app l1 l2 :
  link_chunks (l1 ++ l2) = link_chunks l1 ++ link_chunks l2.
Proof. apply omap_app. Qed.


Ltac flush_cases :=
  unfold flush_events, teacher_flush_events, batch_flush_events, link_flush_events;
  repeat case_bool_decide;
  repeat match goal with |- context [if forallb ?f ?l then _ else _] => destruct (forallb f l) end;
  try reflexivity.

Lemma flush_events_teacher_chunks m :
  teacher_chunks (flush_events m) =
  if bool_decide (batch_size ≤ length (teacher_batch m)) then [teacher_batch m] else [].
Proof. flush_cases. Qed.

Lemma flush_events_batch_chunks m :
  batch_chunks (flush_events m) =
  if bool_decide (50 ≤ length (batch_batch m)) then [batch_batch m] else [].
Proof. flush_cases. Qed.

Lemma flush_events_link_chunks m :
  link_chunks (flush_events m) =
  if bool_decide (batch_size ≤ length (batch_teacher_batch m))
  then [batch_teacher_batch m] else [].
Proof. flush_cases. Qed.

Lemma fast_valid_fields row :
  fast_valid row = true →
  ∃ district batch_name service_type training_group teacher_id teacher_name
    phone_number mobile,
    row = [district; batch_name; service_type; training_group;
           teacher_id; teacher_name; phone_number] ∧
    fast_mobile phone_number = Some mobile.
Proof.
  unfold fast_valid. intros [H7 Hph]%andb_true_iff.
  apply bool_decide_eq_true_1 in H7. apply bool_decide_eq_true_1 in Hph.
  do 8 (destruct row as [|? row]; [try done|]); [|done].
  destruct Hph as [mobile Hph]. by eexists _, _, _, _, _, _, _, _.
Qed.

Lemma prod_valid_fields row :
  prod_valid row = true →
  ∃ district batch_name service_type training_group teacher_id teacher_name
    phone_number mobile,
    row = [district; batch_name; service_type; training_group;
           teacher_id; teacher_name; phone_number] ∧
    clean_phone_number phone_number = Some mobile.
Proof.
  unfold prod_valid. intros [H7 Hph]%andb_true_iff.
  apply bool_decide_eq_true_1 in H7. apply bool_decide_eq_true_1 in Hph.
  do 8 (destruct row as [|? row]; [try done|]); [|done].
  destruct Hph as [mobile Hph]. by eexists _, _, _, _, _, _, _, _.
Qed.




(** *** Inserts without a handler of their own *)

Lemma executemany_step {R} (ok : R → bool) (ins : R → store → store)
    (mk : R → op) (ev : list R → event) (recs : list R) :
  (∀ r w, ins r w = apply_op (mk r) w) →
  ∃ ops, exec_step (executemany ok ins ev recs) (forallb ok recs) ops [ev recs].
Proof. apply executemany_pending. Qed.

Lemma when_nonempty_step {R} (ok : R → bool) (ins : R → store → store)
    (mk : R → op) (ev : list R → event) (bad : event → bool) (recs : list R) :
  (∀ r w, ins r w = apply_op (mk r) w) →
  (∀ l, bad (ev l) = negb (forallb ok l)) →
  ∃ ok' ops, exec_step (when_nonempty (executemany ok ins ev) recs) ok' ops
               (if truthy_list recs then [ev recs] else []) ∧
             ok' = negb (existsb bad (if truthy_list recs then [ev recs] else [])).
Proof.
  intros Hmk Hbad. unfold when_nonempty. destruct (truthy_list recs).
  - destruct (executemany_step ok ins mk ev recs Hmk) as [ops H]. eexists _, _.
    split; [done|]. cbn. rewrite Hbad, orb_false_r. by destruct (forallb ok recs).
  - exists true, []. split; [|done]. intros c. split; [done|]. apply pending_refl.
Qed.

Lemma insert_slices_step {R} (ok : R → bool) (ins : R → store → store)
    (mk : R → op) (ev : list R → event) (bad : event → bool)
    (l : list R) (starts : list nat) :
  (∀ r w, ins r w = apply_op (mk r) w) →
  (∀ l, bad (ev l) = negb (forallb ok l)) →
  ∃ ok' ops n,
    exec_step (insert_slices (executemany ok ins ev) l starts) ok' ops
      ((λ i, ev (slice l i batch_size)) <$> take n starts) ∧
    (ok' = true → take n starts = starts) ∧
    ok' = negb (existsb bad ((λ i, ev (slice l i batch_size)) <$> take n starts)).
Proof.
  intros Hmk Hbad. induction starts as [|i starts (ok' & ops & n & IH & Hn & Hb)].
  - exists true, [], 0. split; [|done]. intros c. split; [done|]. apply pending_refl.
  - destruct (executemany_step ok ins mk ev (slice l i batch_size) Hmk) as [o1 H1].
    destruct (forallb ok (slice l i batch_size)) eqn:E.
    + exists ok', (o1 ++ ops), (S n). split; [|split].
      * intros c. cbn [insert_slices]. destruct (H1 c) as [Hok Hp].
        destruct (executemany ok ins ev (slice l i batch_size) c) as [b c1].
        cbn [fst snd] in *. subst b. destruct (IH c1) as [Hok' Hp'].
        split; [done|]. cbn [take fmap list_fmap].
        by apply (pending_trans o1 [_] ops _ c c1).
      * intros Hok'. cbn [take]. by rewrite Hn.
      * cbn [take fmap list_fmap existsb]. by rewrite Hbad, E.
    + exists false, o1, 1. split; [|split; [done|]].
      * intros c. cbn [insert_slices]. destruct (H1 c) as [Hok Hp].
        destruct (executemany ok ins ev (slice l i batch_size) c) as [b c1].
        cbn [fst snd] in *. subst b. split; [done|]. cbn [take]. by rewrite take_0.
      * cbn [take fmap list_fmap existsb]. by rewrite take_0, Hbad, E.
Qed.

Lemma steps_events_bad (bad : event → bool) ok1 ok2 ok3 e1 e2 e3 :
  ok1 = negb (existsb bad e1) → ok2 = negb (existsb bad e2) →
  ok3 = negb (existsb bad e3) →
  existsb bad (steps_events ok1 ok2 e1 e2 e3) = negb (ok1 && ok2 && ok3).
Proof.
  no_params. intros -> -> ->. unfold steps_events.
  destruct (existsb bad e1) eqn:E1; cbn [negb andb].
  { by rewrite app_nil_r. }
  rewrite existsb_app, E1. cbn [orb].
  destruct (existsb bad e2) eqn:E2; cbn [negb andb].
  { by rewrite app_nil_r. }
  rewrite existsb_app, E2. cbn [orb]. by destruct (existsb bad e3).
Qed.

Lemma raises_teachers l : raises (ExecTeachers l) = negb (forallb teacher_ok l).
Proof. done. Qed.
Lemma raises_batches l : raises (ExecBatches l) = negb (forallb batch_ok l).
Proof. done. Qed.
Lemma raises_links l : raises (ExecLinks l) = negb (forallb link_ok l).
Proof. done. Qed.

Lemma in_one_transaction_settle f1 f2 f3 ok1 ok2 ok3 o1 o2 o3 e1 e2 e3 c :
  exec_step f1 ok1 o1 e1 → exec_step f2 ok2 o2 e2 → exec_step f3 ok3 o3 e3 →
  clean c →
  (in_one_transaction f1 f2 f3 c).1 =
    (if ok1 && ok2 && ok3 then None else Some DatabaseError) ∧
  advances (if ok1 && ok2 && ok3 then o1 ++ o2 ++ o3 else [])
    (steps_events ok1 ok2 e1 e2 e3 ++ [if ok1 && ok2 && ok3 then Commit else Rollback])
    c (settle (in_one_transaction f1 f2 f3 c)).
Proof.
  intros H1 H2 H3 Hc. unfold in_one_transaction, steps_events, settle.
  destruct (H1 c) as [Hb1 P1]. destruct (f1 c) as [b1 c1]. cbn [fst snd] in *. subst b1.
  destruct ok1; cbn [negb andb fst snd].
  2:{ split; [done|]. rewrite app_nil_r. by apply (pending_rollback o1). }
  destruct (H2 c1) as [Hb2 P2]. destruct (f2 c1) as [b2 c2]. cbn [fst snd] in *. subst b2.
  pose proof (pending_trans _ _ _ _ _ _ _ P1 P2) as P12.
  destruct ok2; cbn [negb andb fst snd].
  2:{ split; [done|]. rewrite app_nil_r. by apply (pending_rollback (o1 ++ o2)). }
  destruct (H3 c2) as [Hb3 P3]. destruct (f3 c2) as [b3 c3]. cbn [fst snd] in *. subst b3.
  pose proof (pending_trans _ _ _ _ _ _ _ P12 P3) as P123.
  rewrite <-!app_assoc in P123.
  destruct ok3; cbn [negb andb fst snd].
  - split; [done|]. by apply pending_commit.
  - split; [done|]. by apply (pending_rollback (o1 ++ o2 ++ o3)).
Qed.

Lemma final_flush_settle m :
  ∃ e ops execs,
    teacher_chunks execs =
      (if truthy_list (teacher_batch m) then [teacher_batch m] else []) ∧
    Forall (λ ev, is_exec ev) execs ∧
    (e ≠ None → ops = []) ∧
    ∀ c, clean c →
      (final_flush m c).1 = e ∧
      advances ops (execs ++ [closing e]) c (settle (final_flush m c)).
Proof.
  unfold final_flush.
  destruct (when_nonempty_step teacher_ok insert_teacher OpTeacher ExecTeachers raises
              (teacher_batch m) op_teacher raises_teachers) as (ok1 & o1 & H1 & _).
  destruct (when_nonempty_step batch_ok insert_batch OpBatch ExecBatches raises
              (batch_batch m) op_batch raises_batches) as (ok2 & o2 & H2 & _).
  destruct (when_nonempty_step link_ok insert_link OpLink ExecLinks raises
              (batch_teacher_batch m) op_link raises_links) as (ok3 & o3 & H3 & _).
  exists (if ok1 && ok2 && ok3 then None else Some DatabaseError),
    (if ok1 && ok2 && ok3 then o1 ++ o2 ++ o3 else []),
    (steps_events ok1 ok2
       (if truthy_list (teacher_batch m) then [ExecTeachers (teacher_batch m)] else [])
       (if truthy_list (batch_batch m) then [ExecBatches (batch_batch m)] else [])
       (if truthy_list (batch_teacher_batch m)
        then [ExecLinks (batch_teacher_batch m)] else [])).
  split; [|split; [|split]].
  - unfold steps_events.
    destruct (truthy_list (teacher_batch m)), (truthy_list (batch_batch m)),
      (truthy_list (batch_teacher_batch m)), ok1, ok2; done.
  - unfold steps_events.
    destruct (truthy_list (teacher_batch m)), (truthy_list (batch_batch m)),
      (truthy_list (batch_teacher_batch m)), ok1, ok2;
      repeat constructor.
  - by destruct (ok1 && ok2 && ok3).
  - intros c Hc.
    destruct (in_one_transaction_settle _ _ _ _ _ _ _ _ _ _ _ _ c H1 H2 H3 Hc) as [He Ha].
    split; [done|]. by destruct (ok1 && ok2 && ok3).
Qed.

Lemma insert_all_settle m :
  ∃ e ops execs,
    (e = None → execs = planned_inserts m) ∧
    Forall (λ ev, is_exec ev) execs ∧
    (e ≠ None → ops = []) ∧
    existsb raises execs = (if e is None then false else true) ∧
    ∀ c, clean c →
      (insert_all m c).1 = e ∧
      advances ops (execs ++ [closing e]) c (settle (insert_all m c)).
Proof.
  unfold insert_all.
  destruct (when_nonempty_step batch_ok insert_batch OpBatch ExecBatches raises
              (batch_values (batch_data m)) op_batch raises_batches)
    as (ok1 & o1 & H1 & Hb1).
  destruct (insert_slices_step teacher_ok insert_teacher OpTeacher ExecTeachers raises
              (teacher_records m) (range0 (length (teacher_records m)) batch_size)
              op_teacher raises_teachers) as (ok2 & o2 & n2 & H2 & Hn2 & Hb2).
  destruct (insert_slices_step link_ok insert_link OpLink ExecLinks raises
              (batch_teacher_records m)
              (range0 (length (batch_teacher_records m)) batch_size)
              op_link raises_links) as (ok3 & o3 & n3 & H3 & Hn3 & Hb3).
  exists (if ok1 && ok2 && ok3 then None else Some DatabaseError),
    (if ok1 && ok2 && ok3 then o1 ++ o2 ++ o3 else []),
    (steps_events ok1 ok2
       (if truthy_list (batch_values (batch_data m))
        then [ExecBatches (batch_values (batch_data m))] else [])
       ((λ i, ExecTeachers (slice (teacher_records m) i batch_size)) <$>
          take n2 (range0 (length (teacher_records m)) batch_size))
       ((λ i, ExecLinks (slice (batch_teacher_records m) i batch_size)) <$>
          take n3 (range0 (length (batch_teacher_records m)) batch_size))).
  split; [|split; [|split; [|split]]].
  - unfold steps_events, planned_inserts. destruct ok1, ok2, ok3; try done.
    intros _. by rewrite Hn2, Hn3.
  - unfold steps_events. apply Forall_app. split.
    { destruct (truthy_list _); [|done]. by apply Forall_cons. }
    destruct ok1; [|done]. apply Forall_app. split.
    { apply Forall_fmap, Forall_forall. by intros ? _. }
    destruct ok2; [|done]. apply Forall_fmap, Forall_forall. by intros ? _.
  - by destruct (ok1 && ok2 && ok3).
  - rewrite (steps_events_bad raises ok1 ok2 ok3) by done.
    by destruct (ok1 && ok2 && ok3).
  - intros c Hc.
    destruct (in_one_transaction_settle _ _ _ _ _ _ _ _ _ _ _ _ c H1 H2 H3 Hc) as [He Ha].
    split; [done|]. by destruct (ok1 && ok2 && ok3).
Qed.

(** *** The two runs *)

Lemma import_data_try_settle file :
  ∃ e ops evs,
    ∀ c, clean c →
      (import_data_try file c).1 = e ∧
      advances ops evs c (settle (import_data_try file c)).
Proof.
  destruct file as [[|hdr rows]|]; cbn [import_data_try].
  - exists (Some StopIteration), [], ([] ++ [Rollback]). intros c Hc. split; [done|].
    apply (pending_rollback []); [done|]. apply pending_refl.
  - destruct (for_rows_advances rows init_locals) as (e1 & m & o1 & ev1 & H1).
    destruct e1 as [e1|].
    + exists (Some e1), (o1 ++ []), (ev1 ++ [] ++ [Rollback]). intros c Hc.
      destruct (H1 c Hc) as [Hr Ha]. destruct (for_rows rows init_locals c) as [[e' m'] c1].
      cbn [fst snd] in *. injection Hr as -> ->. split; [done|].
      eapply advances_trans; [done|]. unfold settle. cbn [fst snd].
      apply (pending_rollback []); [by eapply advances_clean|]. apply pending_refl.
    + destruct (final_flush_settle m) as (e2 & o2 & ev2 & _ & _ & _ & H2).
      exists e2, (o1 ++ o2), (ev1 ++ ev2 ++ [closing e2]). intros c Hc.
      destruct (H1 c Hc) as [Hr Ha]. destruct (for_rows rows init_locals c) as [[e' m'] c1].
      cbn [fst snd] in *. injection Hr as -> ->.
      destruct (H2 c1 (advances_clean _ _ _ _ Ha)) as [He Hb]. split; [done|].
      by eapply advances_trans.
  - exists (Some OSError), [], ([] ++ [Rollback]). intros c Hc. split; [done|].
    apply (pending_rollback []); [done|]. apply pending_refl.
Qed.

Lemma import_production_data_try_settle file :
  ∃ e ops execs,
    Forall (λ ev, is_exec ev) execs ∧
    (e ≠ None → ops = []) ∧
    (e = None → existsb raises execs = false ∧
       ∃ hdr rows m,
         file = Some (hdr :: rows) ∧ store_rows rows init_plocals = (None, m) ∧
         execs = planned_inserts m) ∧
    ∀ c, clean c →
      (import_production_data_try file c).1 = e ∧
      advances ops (execs ++ [closing e]) c (settle (import_production_data_try file c)).
Proof.
  destruct file as [[|hdr rows]|]; cbn [import_production_data_try].
  - exists (Some StopIteration), [], []. do 3 (split; [done|]). intros c Hc.
    split; [done|]. apply (pending_rollback []); [done|]. apply pending_refl.
  - destruct (store_rows rows init_plocals) as [[e1|] m] eqn:E.
    + exists (Some e1), [], []. do 3 (split; [done|]). intros c Hc.
      split; [done|]. apply (pending_rollback []); [done|]. apply pending_refl.
    + destruct (insert_all_settle m) as (e2 & o2 & ev2 & Hplan & Hex & Hops & Hbad & H2).
      exists e2, o2, ev2. split; [done|]. split; [done|]. split; [|done].
      intros He. split; [by rewrite Hbad, He|]. exists hdr, rows, m. auto.
  - exists (Some OSError), [], []. do 3 (split; [done|]). intros c Hc.
    split; [done|]. apply (pending_rollback []); [done|]. apply pending_refl.
Qed.

(** *** Running the inserts again *)

Lemma has_key_apply_op_id (o : op) (s : store) : has_key o s → apply_op o s = s.
Proof.
  no_params. destruct o as [r|r|r]; cbn;
    unfold insert_teacher, insert_batch, insert_link; intros [x ->]; done.
Qed.

Lemma has_key_apply_op (o : op) (s : store) : has_key o (apply_op o s).
Proof.
  no_params. destruct o as [r|r|r]; cbn; unfold insert_teacher, insert_batch, insert_link.
  - destruct (teachers s !! t_mobile r) eqn:E; cbn; [by rewrite E|].
    by rewrite lookup_insert_eq.
  - destruct (batches s !! b_batch_name r) eqn:E; cbn; [by rewrite E|].
    by rewrite lookup_insert_eq.
  - destruct (batch_teachers s !! (l_batch_name r, l_teacher_mobile r)) eqn:E; cbn;
      [by rewrite E|].
    by rewrite lookup_insert_eq.
Qed.

Lemma has_key_mono (o o' : op) (s : store) : has_key o s → has_key o (apply_op o' s).
Proof.
  no_params. destruct o as [r|r|r], o' as [r'|r'|r']; cbn;
    unfold insert_teacher, insert_batch, insert_link; intros H;
    match goal with |- context [match ?x with _ => _ end] => destruct x end;
    cbn; try done; apply lookup_insert_is_Some'; by right.
Qed.

Lemma has_key_apply_ops_mono (o : op) (ops : list op) (s : store) :
  has_key o s → has_key o (apply_ops ops s).
Proof.
  revert s. induction ops as [|o' ops IH]; intros s H; [done|].
  cbn. apply IH. by apply has_key_mono.
Qed.

Lemma apply_ops_covered (ops : list op) (s : store) :
  Forall (λ o, has_key o s) ops → apply_ops ops s = s.
Proof.
  induction 1 as [|o ops Ho _ IH]; [done|].
  cbn. rewrite has_key_apply_op_id by done. apply IH.
Qed.

Lemma apply_ops_covers (ops : list op) (s : store) :
  Forall (λ o, has_key o (apply_ops ops s)) ops.
Proof.
  revert s. induction ops as [|o ops IH]; intros s; [done|].
  apply Forall_cons. split.
  - cbn. apply has_key_apply_ops_mono, has_key_apply_op.
  - apply IH.
Qed.

Lemma apply_ops_twice (ops : list op) (s : store) :
  apply_ops ops (apply_ops ops s) = apply_ops ops s.
Proof. apply apply_ops_covered, apply_ops_covers. Qed.

Lemma import_data_final_store reach file :
  ∃ ops, ∀ s, final_store (import_data (mkWorld reach s file)) = apply_ops ops s.
Proof.
  destruct reach; [|by exists []].
  destruct (import_data_try_settle file) as (e & ops & evs & H).
  exists ops. intros s. unfold import_data. cbn [reachable csv db final_store].
  destruct (H (connect s)) as [_ (Hc & _ & _)]; [done|]. cbn. by rewrite Hc.
Qed.

Lemma import_production_data_final_store reach file :
  ∃ ops, ∀ s, final_store (import_production_data (mkWorld reach s file)) = apply_ops ops s.
Proof.
  destruct reach; [|by exists []].
  destruct (import_production_data_try_settle file) as (e & ops & evs & _ & _ & _ & H).
  exists ops. intros s. unfold import_production_data. cbn [reachable csv db final_store].
  destruct (H (connect s)) as [_ (Hc & _ & _)]; [done|]. cbn. by rewrite Hc.
Qed.

(** C5.  Importing the same file a second time, into the store the first
    import left, changes nothing: the store after the second run is the
    store after the first, so the three row counts are the same and the
    second run inserts no row.  In both scripts, from any store, the empty
    one included. *)
Theorem reimport_is_noop (reach : bool) (s : store) (file : option (list (list str))) :
  let once := final_store (import_data (mkWorld reach s file)) in
  let twice := final_store (import_data (mkWorld reach once file)) in
  let ponce := final_store (import_production_data (mkWorld reach s file)) in
  let ptwice := final_store (import_production_data (mkWorld reach ponce file)) in
  (twice = once ∧
   size (teachers twice) = size (teachers once) ∧
   size (batches twice) = size (batches once) ∧
   size (batch_teachers twice) = size (batch_teachers once)) ∧
  (ptwice = ponce ∧
   size (teachers ptwice) = size (teachers ponce) ∧
   size (batches ptwice) = size (batches ponce) ∧
   size (batch_teachers ptwice) = size (batch_teachers ponce)).
Proof.
  intros once twice ponce ptwice.
  destruct (import_data_final_store reach file) as [ops Hops].
  destruct (import_production_data_final_store reach file) as [pops Hpops].
  assert (twice = once) as ->.
  { subst twice once. by rewrite !Hops, apply_ops_twice. }
  assert (ptwice = ponce) as ->.
  { subst ptwice ponce. by rewrite !Hpops, apply_ops_twice. }
  done.
Qed.

(** *** The single transaction of production-import *)

Lemma production_outcome (w : world) :
  let r := import_production_data w in
  (status r = 0%Z ∧ existsb raises (trace r) = false ∧
   ∃ hdr rows m,
     csv w = Some (hdr :: rows) ∧ store_rows rows init_plocals = (None, m) ∧
     trace r = planned_inserts m ++ [Commit; Close]) ∨
  (status r = 1%Z ∧ final_store r = db w ∧ (Commit ∉ trace r) ∧
   (reachable w = true →
    ∃ execs, Forall (λ ev, is_exec ev) execs ∧ trace r = execs ++ [Rollback; Close])).
Proof.
  intros r. subst r. unfold import_production_data.
  destruct (reachable w); [|right; cbn; split; [done|]; split; [done|]; split; [|done];
    apply not_elem_of_nil].
  destruct (import_production_data_try_settle (csv w))
    as (e & ops & execs & Hex & Hops & Hplan & H).
  destruct (H (connect (db w))) as [He (Hc & _ & Hlog)]; [done|].
  rewrite He. cbn [status final_store trace close committed log].
  rewrite Hc, Hlog. cbn [connect log committed app]. destruct e as [e|]; cbn [closing].
  - right. split; [done|]. rewrite Hops by done. split; [done|]. split.
    + rewrite <-app_assoc. cbn [app]. intros [Hin|Hin]%elem_of_app.
      * rewrite Forall_forall in Hex. by apply Hex in Hin.
      * apply elem_of_cons in Hin as [?|Hin]; [done|].
        apply elem_of_cons in Hin as [?|Hin]; [done|]. by apply elem_of_nil in Hin.
    + intros _. exists execs. split; [done|]. by rewrite <-app_assoc.
  - left. split; [done|]. destruct Hplan as (Hbad & hdr & rows & m & ? & ? & ->); [done|].
    split.
    { rewrite !existsb_app, Hbad. done. }
    exists hdr, rows, m. split; [done|]. split; [done|]. by rewrite <-app_assoc.
Qed.

(** C9.  production-import commits once, after all its bulk inserts, or not
    at all: a run that ends with status 0 has made every planned insert on
    the three tables and then its only commit; any other run has committed
    nothing, has rolled back, and leaves the store as it found it. *)
Theorem production_all_or_nothing (w : world) :
  let r := import_production_data w in
  (status r = 0%Z ∧
   ∃ hdr rows m,
     csv w = Some (hdr :: rows) ∧ store_rows rows init_plocals = (None, m) ∧
     trace r = planned_inserts m ++ [Commit; Close]) ∨
  (status r = 1%Z ∧ final_store r = db w ∧ (Commit ∉ trace r) ∧
   (reachable w = true →
    ∃ execs, Forall (λ ev, is_exec ev) execs ∧ trace r = execs ++ [Rollback; Close])).
Proof.
  destruct (production_outcome w) as [(H0 & _ & H)|H]; [left|right]; done.
Qed.

(** *** 1500 valid rows *)










(** *** One Batch record per batch name *)

Lemma queued_batches_flushed m (l : list event) :
  queued (batch_chunks (l ++ flush_events m)) (batch_batch (flushed m)) =
  queued (batch_chunks l) (batch_batch m).
Proof.
  unfold queued. rewrite batch_chunks_app, flush_events_batch_chunks.
  unfold flushed. cbn [batch_batch]. case_bool_decide.
  - rewrite concat_app. cbn [concat]. by rewrite !app_nil_r.
  - by rewrite app_nil_r.
Qed.

Lemma queued_links_flushed m (l : list event) :
  queued (link_chunks (l ++ flush_events m)) (batch_teacher_batch (flushed m)) =
  queued (link_chunks l) (batch_teacher_batch m).
Proof.
  unfold queued. rewrite link_chunks_app, flush_events_link_chunks.
  unfold flushed. cbn [batch_teacher_batch]. case_bool_decide.
  - rewrite concat_app. cbn [concat]. by rewrite !app_nil_r.
  - by rewrite app_nil_r.
Qed.

Lemma fast_refers_7 name d b sv g tid tn ph :
  fast_refers name [d; b; sv; g; tid; tn; ph] =
  bool_decide (is_Some (fast_mobile ph)) && bool_decide (b = name).
Proof.
  unfold fast_refers, fast_valid, phone_of. cbn [length lookup list_lookup default].
  rewrite (bool_decide_eq_true_2 (7 = 7)) by done. cbn [andb]. f_equal.
  apply bool_decide_ext. split; [by intros [= ->]|by intros ->].
Qed.

Lemma prod_refers_7 name d b sv g tid tn ph :
  prod_refers name [d; b; sv; g; tid; tn; ph] =
  bool_decide (is_Some (clean_phone_number ph)) && bool_decide (b = name).
Proof.
  unfold prod_refers, prod_valid, phone_of. cbn [length lookup list_lookup default].
  rewrite (bool_decide_eq_true_2 (7 = 7)) by done. cbn [andb]. f_equal.
  apply bool_decide_ext. split; [by intros [= ->]|by intros ->].
Qed.

Lemma fast_refers_short name row : length row < 7 → fast_refers name row = false.
Proof.
  intros H. unfold fast_refers, fast_valid. rewrite bool_decide_eq_false_2; [done|lia].
Qed.

Lemma prod_refers_short name row : length row < 7 → prod_refers name row = false.
Proof.
  intros H. unfold prod_refers, prod_valid. rewrite bool_decide_eq_false_2; [done|lia].
Qed.

(** A row of at most seven fields is skipped, or has seven fields. *)
Lemma row_cases (row : list str) :
  length row ≤ 7 →
  length row < 7 ∨
  ∃ d b sv g tid tn ph, row = [d; b; sv; g; tid; tn; ph].
Proof.
  intros H. destruct (decide (length row < 7)) as [|Hge]; [by left|right].
  do 8 (destruct row as [|? row]; [try (cbn [length] in Hge; lia)|]);
    [|cbn [length] in H; lia].
  by eexists _, _, _, _, _, _, _.
Qed.

Lemma first_batch_cons (P : list str → bool) row rows :
  first_batch (filter (λ r, P r) (row :: rows)) =
  if P row then [batch_of_row row] else first_batch (filter (λ r, P r) rows).
Proof.
  destruct (P row) eqn:E.
  - rewrite filter_cons_True; [done|]. by apply Is_true_true_2.
  - rewrite filter_cons_False; [done|]. by apply Is_true_false_2.
Qed.

Lemma for_rows_batch_name (name : str) rows m c :
  Forall (λ row : list str, length row ≤ 7) rows →
  name ≠ [] → name ≠ py "null" →
  filter (λ b, b_batch_name b = name)
    (queued (batch_chunks (log (for_rows rows m c).2)) (batch_batch (for_rows rows m c).1.2)) =
  filter (λ b, b_batch_name b = name) (queued (batch_chunks (log c)) (batch_batch m)) ++
  (if decide (name ∈ unique_batches m) then []
   else first_batch (filter (λ row, fast_refers name row) rows)).
Proof.
  intros Hrows Hne Hnull. revert m c.
  induction Hrows as [|row rows Hrow _ IH]; intros m c.
  { cbn. by destruct (decide _); rewrite app_nil_r. }
  rewrite first_batch_cons. cbn [for_rows].
  destruct (row_cases row Hrow) as [Hshort|(d & b & sv & g & tid & tn & ph & ->)].
  { unfold accumulate_row. rewrite bool_decide_eq_true_2 by done.
    rewrite fast_refers_short by done. apply IH. }
  rewrite accumulate_row_7, fast_refers_7.
  destruct (fast_mobile ph) as [mobile|] eqn:Hph.
  2:{ rewrite (bool_decide_eq_false_2 (is_Some None)) by (by intros [? ?]). apply IH. }
  rewrite (bool_decide_eq_true_2 (is_Some (Some mobile))) by done. cbn [andb].
  cbn zeta.
  match goal with |- context [flush_chunks ?m1 c] =>
    pose proof (flush_chunks_fst m1 c) as Hf; pose proof (flush_chunks_log m1 c) as Hlog;
    destruct (flush_chunks m1 c) as [m2 c2];
    cbn [fst snd] in Hf, Hlog; subst m2;
    rewrite IH, Hlog, queued_batches_flushed
  end.
  cbn [batch_batch unique_batches flushed].
  destruct (decide (b = name)) as [->|Hb].
  - rewrite (bool_decide_eq_true_2 (name = name)) by done.
    rewrite (bool_decide_eq_true_2 (name ≠ [] ∧ name ≠ py "null")) by done. cbn [andb].
    destruct (decide (name ∈ unique_batches m)) as [Hin|Hin].
    + rewrite (bool_decide_eq_false_2 (name ∉ unique_batches m)) by tauto.
      by rewrite decide_True.
    + rewrite (bool_decide_eq_true_2 (name ∉ unique_batches m)) by done.
      rewrite decide_True by (clear; set_solver).
      unfold queued. rewrite app_assoc, filter_app, filter_cons_True, filter_nil by done.
      by rewrite app_nil_r.
  - rewrite (bool_decide_eq_false_2 (b = name)) by done.
    destruct (bool_decide (b ≠ [] ∧ b ≠ py "null") && bool_decide (b ∉ unique_batches m)).
    + unfold queued. rewrite app_assoc, filter_app, filter_cons_False, filter_nil by done.
      rewrite app_nil_r. f_equal.
      destruct (decide (name ∈ unique_batches m)) as [Hin|Hin].
      * rewrite decide_True; [done|]. clear -Hin. set_solver.
      * rewrite decide_False; [done|]. clear -Hin Hb. set_solver.
    + done.
Qed.

Lemma for_rows_link_name (name : str) rows m c :
  Forall (λ row : list str, length row ≤ 7) rows →
  name ≠ [] → name ≠ py "null" →
  length (filter (λ l, l_batch_name l = name)
    (queued (link_chunks (log (for_rows rows m c).2))
       (batch_teacher_batch (for_rows rows m c).1.2))) =
  length (filter (λ l, l_batch_name l = name)
    (queued (link_chunks (log c)) (batch_teacher_batch m))) +
  length (filter (λ row, fast_refers name row) rows).
Proof.
  intros Hrows Hne Hnull. revert m c.
  induction Hrows as [|row rows Hrow _ IH]; intros m c.
  { cbn. lia. }
  cbn [for_rows].
  destruct (row_cases row Hrow) as [Hshort|(d & b & sv & g & tid & tn & ph & ->)].
  { unfold accumulate_row. rewrite bool_decide_eq_true_2 by done.
    rewrite filter_cons_False by (by apply Is_true_false_2, fast_refers_short). apply IH. }
  rewrite accumulate_row_7.
  destruct (fast_mobile ph) as [mobile|] eqn:Hph.
  2:{ rewrite filter_cons_False; [apply IH|]. apply Is_true_false_2.
      rewrite fast_refers_7, Hph.
      rewrite (bool_decide_eq_false_2 (is_Some None)); [done|]. by intros [? ?]. }
  cbn [andb].
  match goal with |- context [flush_chunks ?m1 c] =>
    pose proof (flush_chunks_fst m1 c) as Hf; pose proof (flush_chunks_log m1 c) as Hlog;
    destruct (flush_chunks m1 c) as [m2 c2];
    cbn [fst snd] in Hf, Hlog; subst m2;
    rewrite IH, Hlog, queued_links_flushed
  end.
  cbn [batch_teacher_batch].
  destruct (decide (b = name)) as [->|Hb].
  - rewrite (bool_decide_eq_true_2 (name ≠ [] ∧ name ≠ py "null")) by done.
    rewrite (filter_cons_True (λ row, fast_refers name row)).
    2:{ apply Is_true_true_2. rewrite fast_refers_7, Hph.
        rewrite !bool_decide_eq_true_2; done. }
    unfold queued. rewrite app_assoc, filter_app, filter_cons_True, filter_nil by done.
    rewrite length_app. cbn [length]. lia.
  - rewrite (filter_cons_False (λ row, fast_refers name row)).
    2:{ apply Is_true_false_2. rewrite fast_refers_7.
        rewrite (bool_decide_eq_false_2 (b = name)) by done. apply andb_false_r. }
    destruct (bool_decide (b ≠ [] ∧ b ≠ py "null")); [|done].
    unfold queued. rewrite app_assoc, filter_app, filter_cons_False, filter_nil by done.
    by rewrite app_nil_r.
Qed.

Lemma dict_set_fresh {V} (k : str) (v : V) (d : list (str * V)) :
  dict_mem k d = false → dict_set k v d = d ++ [(k, v)].
Proof.
  no_params. unfold dict_mem. intros H. apply bool_decide_eq_false_1 in H.
  induction d as [|[k' v'] d IH]; [done|].
  cbn [dict_set]. rewrite fmap_cons, not_elem_of_cons in H. destruct H as [Hk Hd].
  rewrite bool_decide_eq_false_2 by done. cbn. by rewrite IH.
Qed.

Lemma dict_mem_snoc {V} (k k' : str) (v : V) (d : list (str * V)) :
  dict_mem k (d ++ [(k', v)]) = bool_decide (k = k') || dict_mem k d.
Proof.
  no_params. unfold dict_mem. rewrite fmap_app. cbn [fmap list_fmap fst].
  destruct (decide (k = k')) as [->|Hk].
  - rewrite (bool_decide_eq_true_2 (k' = k')) by done.
    apply bool_decide_eq_true_2. set_solver.
  - rewrite (bool_decide_eq_false_2 (k = k')) by done. cbn [orb].
    apply bool_decide_ext. set_solver.
Qed.

Lemma store_rows_batch_name (name : str) rows m :
  Forall (λ row : list str, length row ≤ 7) rows →
  name ≠ [] → name ≠ py "null" →
  filter (λ b, b_batch_name b = name) (batch_values (batch_data (store_rows rows m).2)) =
  filter (λ b, b_batch_name b = name) (batch_values (batch_data m)) ++
  (if dict_mem name (batch_data m) then []
   else first_batch (filter (λ row, prod_refers name row) rows)).
Proof.
  intros Hrows Hne Hnull. revert m.
  induction Hrows as [|row rows Hrow _ IH]; intros m.
  { cbn. by destruct (dict_mem _ _); rewrite app_nil_r. }
  rewrite first_batch_cons. cbn [store_rows].
  destruct (row_cases row Hrow) as [Hshort|(d & b & sv & g & tid & tn & ph & ->)].
  { unfold store_row. rewrite bool_decide_eq_true_2 by done.
    rewrite prod_refers_short by done. apply IH. }
  rewrite store_row_7, prod_refers_7.
  destruct (clean_phone_number ph) as [mobile|] eqn:Hph.
  2:{ rewrite (bool_decide_eq_false_2 (is_Some None)) by (by intros [? ?]). apply IH. }
  rewrite (bool_decide_eq_true_2 (is_Some (Some mobile))) by done. cbn [andb].
  rewrite IH. cbn [batch_data].
  destruct (decide (b = name)) as [->|Hb].
  - rewrite (bool_decide_eq_true_2 (name = name)) by done.
    rewrite (bool_decide_eq_true_2 (name ≠ [] ∧ name ≠ py "null")) by done. cbn [andb].
    destruct (dict_mem name (batch_data m)) eqn:Hmem; cbn [negb]; [by rewrite Hmem|].
    rewrite dict_set_fresh by done. rewrite dict_mem_snoc.
    rewrite (bool_decide_eq_true_2 (name = name)) by done. cbn [orb].
    unfold batch_values. rewrite fmap_app, filter_app. cbn [fmap list_fmap fst snd].
    rewrite filter_cons_True, filter_nil by done. by rewrite app_nil_r.
  - rewrite (bool_decide_eq_false_2 (b = name)) by done.
    destruct (bool_decide (b ≠ [] ∧ b ≠ py "null") && negb (dict_mem b (batch_data m)))
      eqn:Hfresh; [|done].
    apply andb_true_iff in Hfresh as [_ Hfresh]. apply negb_true_iff in Hfresh.
    rewrite dict_set_fresh by done. rewrite dict_mem_snoc.
    rewrite (bool_decide_eq_false_2 (name = b)) by done. cbn [orb].
    unfold batch_values. rewrite fmap_app, filter_app. cbn [fmap list_fmap fst snd].
    rewrite filter_cons_False, filter_nil by done. by rewrite app_nil_r.
Qed.

Lemma store_rows_link_name (name : str) rows m :
  Forall (λ row : list str, length row ≤ 7) rows →
  name ≠ [] → name ≠ py "null" →
  length (filter (λ l, l_batch_name l = name)
            (batch_teacher_records (store_rows rows m).2)) =
  length (filter (λ l, l_batch_name l = name) (batch_teacher_records m)) +
  length (filter (λ row, prod_refers name row) rows).
Proof.
  intros Hrows Hne Hnull. revert m.
  induction Hrows as [|row rows Hrow _ IH]; intros m.
  { cbn. lia. }
  cbn [store_rows].
  destruct (row_cases row Hrow) as [Hshort|(d & b & sv & g & tid & tn & ph & ->)].
  { unfold store_row. rewrite bool_decide_eq_true_2 by done.
    rewrite filter_cons_False by (by apply Is_true_false_2, prod_refers_short). apply IH. }
  rewrite store_row_7.
  destruct (clean_phone_number ph) as [mobile|] eqn:Hph.
  2:{ rewrite filter_cons_False; [apply IH|]. apply Is_true_false_2.
      rewrite prod_refers_7, Hph.
      rewrite (bool_decide_eq_false_2 (is_Some None)); [done|]. by intros [? ?]. }
  cbn [andb]. rewrite IH. cbn [batch_teacher_records].
  destruct (decide (b = name)) as [->|Hb].
  - rewrite (bool_decide_eq_true_2 (name ≠ [] ∧ name ≠ py "null")) by done.
    rewrite (filter_cons_True (λ row, prod_refers name row)).
    2:{ apply Is_true_true_2. rewrite prod_refers_7, Hph.
        rewrite !bool_decide_eq_true_2; done. }
    rewrite filter_app, filter_cons_True, filter_nil by done.
    rewrite length_app. cbn [length]. lia.
  - rewrite (filter_cons_False (λ row, prod_refers name row)).
    2:{ apply Is_true_false_2. rewrite prod_refers_7.
        rewrite (bool_decide_eq_false_2 (b = name)) by done. apply andb_false_r. }
    destruct (bool_decide (b ≠ [] ∧ b ≠ py "null")); [|done].
    rewrite filter_app, filter_cons_False, filter_nil by done.
    by rewrite app_nil_r.
Qed.

(** X17.  Over a file with no row of more than seven fields, and for a batch
    name that is non-empty and not "null": the Batch records queued for the
    name during the run are the single record built from the first valid
    row that carries it (district, service type and training group of that
    row, the last two defaulted to "Primary"), or none when no valid row
    carries it; the Link records queued for the name are as many as the
    valid rows that carry it.  In fast-import the queued records are those
    handed to the statements inside the loop and those left in the buffers;
    in production-import they are the values of [batch_data] and the list
    of link records. *)
Theorem one_batch_per_name (name : str) (rows : list (list str)) (s : store) :
  Forall (λ row : list str, length row ≤ 7) rows →
  name ≠ [] → name ≠ py "null" →
  let fast := for_rows rows init_locals (connect s) in
  let prod := store_rows rows init_plocals in
  filter (λ b, b_batch_name b = name)
    (queued (batch_chunks (log fast.2)) (batch_batch fast.1.2)) =
    first_batch (filter (λ row, fast_refers name row) rows) ∧
  length (filter (λ l, l_batch_name l = name)
    (queued (link_chunks (log fast.2)) (batch_teacher_batch fast.1.2))) =
    length (filter (λ row, fast_refers name row) rows) ∧
  filter (λ b, b_batch_name b = name) (batch_values (batch_data prod.2)) =
    first_batch (filter (λ row, prod_refers name row) rows) ∧
  length (filter (λ l, l_batch_name l = name) (batch_teacher_records prod.2)) =
    length (filter (λ row, prod_refers name row) rows).
Proof.
  intros Hrows Hne Hnull fast prod. subst fast prod.
  rewrite for_rows_batch_name, for_rows_link_name by done.
  rewrite store_rows_batch_name, store_rows_link_name by done.
  cbn [init_locals init_plocals unique_batches batch_data batch_teacher_records
       batch_batch batch_teacher_batch connect log].
  rewrite decide_False by (clear; set_solver). done.
Qed.

(** *** A bulk insert that raises *)






(** ** Further properties *)

(** *** [escape_sql_string] *)

Lemma escape_sql_string_cons (ch : char) (s : str) :
  escape_sql_string (ch :: s) =
  (if bool_decide (ch = quote) then [quote; quote]
   else if bool_decide (ch = backslash) then [backslash; backslash] else [ch]) ++
  escape_sql_string s.
Proof.
  no_params. unfold escape_sql_string. cbn [truthy negb replace_char].
  assert (∀ a b, replace_char backslash [backslash; backslash] (a ++ b) =
                 replace_char backslash [backslash; backslash] a ++
                 replace_char backslash [backslash; backslash] b) as Happ.
  { induction a as [|x a IH]; intros b; [done|]. cbn. by rewrite IH, <-app_assoc. }
  rewrite Happ. f_equal.
  - case_bool_decide as Hq; [done|]. cbn. case_bool_decide; by rewrite app_nil_r.
  - by destruct s.
Qed.

(** X1.  Escaping goes character by character: the escape of a concatenation is
    the concatenation of the escapes. *)
Theorem escape_sql_string_app (a b : str) :
  escape_sql_string (a ++ b) = escape_sql_string a ++ escape_sql_string b.
Proof.
  induction a as [|ch a IH]; [done|].
  cbn [app]. by rewrite !escape_sql_string_cons, IH, <-app_assoc.
Qed.

Lemma occurrences_cons (ch x : char) (s : str) :
  occurrences ch (x :: s) = (if bool_decide (x = ch) then 1 else 0) + occurrences ch s.
Proof.
  no_params. unfold occurrences.
  case_bool_decide; [rewrite filter_cons_True|rewrite filter_cons_False]; done.
Qed.

Lemma occurrences_app (ch : char) (a b : str) :
  occurrences ch (a ++ b) = occurrences ch a + occurrences ch b.
Proof. no_params. unfold occurrences. by rewrite filter_app, length_app. Qed.

Lemma escape_sql_string_counts (value : str) :
  length (escape_sql_string value) =
    length value + occurrences quote value + occurrences backslash value ∧
  occurrences quote (escape_sql_string value) = 2 * occurrences quote value ∧
  occurrences backslash (escape_sql_string value) = 2 * occurrences backslash value.
Proof.
  no_params. induction value as [|ch value (IH1 & IH2 & IH3)]; [done|].
  rewrite escape_sql_string_cons, length_app, !occurrences_app, IH1, IH2, IH3.
  rewrite !(occurrences_cons _ ch).
  destruct (decide (ch = quote)) as [->|Hq].
  { rewrite !(bool_decide_eq_true_2 (quote = quote)) by done.
    rewrite (bool_decide_eq_false_2 (quote = backslash)) by done.
    change (occurrences quote [quote; quote]) with 2.
    change (occurrences backslash [quote; quote]) with 0.
    cbn [length]. lia. }
  rewrite !(bool_decide_eq_false_2 (ch = quote)) by done.
  destruct (decide (ch = backslash)) as [->|Hb].
  { rewrite !(bool_decide_eq_true_2 (backslash = backslash)) by done.
    change (occurrences quote [backslash; backslash]) with 0.
    change (occurrences backslash [backslash; backslash]) with 2.
    cbn [length]. lia. }
  rewrite !(bool_decide_eq_false_2 (ch = backslash)) by done.
  rewrite !(occurrences_cons _ ch []).
  rewrite (bool_decide_eq_false_2 (ch = quote)), (bool_decide_eq_false_2 (ch = backslash))
    by done.
  change (occurrences quote []) with 0. change (occurrences backslash []) with 0.
  cbn [length]. lia.
Qed.

(** X2.  Every apostrophe and every backslash costs one more character, and
    nothing else changes the length; in the result each of the two occurs
    twice as often as in the input. *)
Theorem escape_sql_string_length (value : str) :
  length (escape_sql_string value) =
    length value + occurrences quote value + occurrences backslash value ∧
  occurrences quote (escape_sql_string value) = 2 * occurrences quote value ∧
  occurrences backslash (escape_sql_string value) = 2 * occurrences backslash value.
Proof. apply escape_sql_string_counts. Qed.

(** X3.  A string comes back unchanged exactly when it holds neither an
    apostrophe nor a backslash. *)
Theorem escape_sql_string_unchanged (value : str) :
  escape_sql_string value = value ↔ (quote ∉ value) ∧ (backslash ∉ value).
Proof.
  no_params. split.
  - intros Heq. destruct (escape_sql_string_counts value) as (Hlen & _).
    rewrite Heq in Hlen. unfold occurrences in Hlen.
    assert (∀ ch : char, length (filter (λ x, x = ch) value) = 0 → ch ∉ value) as Hnone.
    { intros ch H0 Hin. apply length_zero_iff_nil in H0.
      by apply (filter_nil_not_elem_of _ _ ch H0). }
    split; apply Hnone; lia.
  - intros [Hq Hb]. induction value as [|ch value IH]; [done|].
    apply not_elem_of_cons in Hq as [Hq1 Hq2]. apply not_elem_of_cons in Hb as [Hb1 Hb2].
    rewrite escape_sql_string_cons, IH by done.
    rewrite (bool_decide_eq_false_2 (ch = quote)), (bool_decide_eq_false_2 (ch = backslash));
      done.
Qed.

(** X4.  Two strings with the same escape are the same string. *)
Theorem escape_sql_string_injective (a b : str) :
  escape_sql_string a = escape_sql_string b → a = b.
Proof.
  no_params. revert b. induction a as [|x a IH]; intros [|y b] Heq; [done| | |].
  - rewrite escape_sql_string_cons in Heq. cbn [escape_sql_string truthy negb] in Heq.
    repeat case_bool_decide; discriminate.
  - rewrite escape_sql_string_cons in Heq. cbn [escape_sql_string truthy negb] in Heq.
    repeat case_bool_decide; discriminate.
  - rewrite !escape_sql_string_cons in Heq.
    repeat case_bool_decide; simplify_eq/=; try done; by f_equal; apply IH.
Qed.

(** *** The two phone clean-ups *)

Lemma filter_all {A} (P : A → Prop) `{!∀ x, Decision (P x)} (l : list A) :
  Forall P l → filter P l = l.
Proof.
  no_params. induction 1 as [|x l Hx _ IH]; [done|].
  by rewrite filter_cons_True, IH.
Qed.

Lemma filter_same {A} (P Q : A → Prop) `{!∀ x, Decision (P x)} `{!∀ x, Decision (Q x)}
    (l : list A) :
  Forall (λ x, P x ↔ Q x) l → filter P l = filter Q l.
Proof.
  no_params. induction 1 as [|x l Hx _ IH]; [done|].
  destruct (decide (P x)) as [HP|HP].
  - rewrite !filter_cons_True, IH; tauto.
  - rewrite !filter_cons_False, IH; tauto.
Qed.

(** X5.  A cleaned phone number is left as it is when cleaned again, by either
    script. *)
Theorem phone_clean_up_stable (raw : str) :
  match fast_mobile raw with
  | Some mobile => fast_mobile mobile = Some mobile
  | None => True
  end ∧
  match clean_phone_number raw with
  | Some mobile => clean_phone_number mobile = Some mobile
  | None => True
  end.
Proof.
  split.
  - destruct (fast_mobile raw) as [mobile|] eqn:E; [|done].
    apply fast_mobile_Some in E as (_ & Hlen & Hdig).
    rewrite fast_mobile_eq, filter_all by done.
    rewrite decide_False.
    + by rewrite take_ge by lia.
    + intros [->|?]; [done|lia].
  - destruct (clean_phone_number raw) as [mobile|] eqn:E; [|done].
    apply clean_phone_number_Some in E as (_ & Hlen & Hdig).
    rewrite clean_phone_number_eq, filter_all by done.
    rewrite decide_False.
    + by rewrite take_ge by lia.
    + intros [->|?]; [done|lia].
Qed.

Lemma clean_phone_number_as_fast (raw : str) :
  Forall (λ ch, str_isdigit ch = bool_decide (is_0_9 ch)) raw →
  clean_phone_number raw = fast_mobile raw.
Proof.
  intros Hagree. rewrite clean_phone_number_eq, fast_mobile_eq.
  rewrite (filter_same (λ ch, str_isdigit ch) is_0_9); [done|].
  eapply Forall_impl; [exact Hagree|]. intros ch Hch. cbn beta. rewrite Hch.
  apply bool_decide_spec.
Qed.

(** X6.  On an input whose characters [str.isdigit] classifies as [[0-9]] does,
    the clean-up of production-import gives what the one of fast-import
    gives. *)
Theorem phone_clean_ups_agree (raw : str) :
  Forall (λ ch, str_isdigit ch = bool_decide (is_0_9 ch)) raw →
  clean_phone_number raw = fast_mobile raw.
Proof. apply clean_phone_number_as_fast. Qed.

(** *** Rows already stored *)

Lemma apply_op_keeps (o : op) (s : store) :
  teachers s ⊆ teachers (apply_op o s) ∧
  batches s ⊆ batches (apply_op o s) ∧
  batch_teachers s ⊆ batch_teachers (apply_op o s).
Proof.
  no_params. destruct o as [r|r|r]; cbn; unfold insert_teacher, insert_batch, insert_link;
    match goal with |- context [match ?x with _ => _ end] => destruct x eqn:E end;
    cbn; repeat split; try done; by apply insert_subseteq.
Qed.

Lemma apply_ops_keeps (ops : list op) (s : store) :
  teachers s ⊆ teachers (apply_ops ops s) ∧
  batches s ⊆ batches (apply_ops ops s) ∧
  batch_teachers s ⊆ batch_teachers (apply_ops ops s).
Proof.
  no_params. revert s. induction ops as [|o ops IH]; intros s; [done|].
  cbn. destruct (apply_op_keeps o s) as (H1 & H2 & H3).
  destruct (IH (apply_op o s)) as (H4 & H5 & H6).
  repeat split; etrans; done.
Qed.

(** X7.  Neither script changes or removes a row that is in the store when it
    starts, whatever the file holds and whatever the store answers; so no
    table has fewer rows after the run than before. *)
Theorem stored_rows_are_kept (w : world) :
  let fast := final_store (import_data w) in
  let prod := final_store (import_production_data w) in
  (teachers (db w) ⊆ teachers fast ∧ batches (db w) ⊆ batches fast ∧
   batch_teachers (db w) ⊆ batch_teachers fast) ∧
  (teachers (db w) ⊆ teachers prod ∧ batches (db w) ⊆ batches prod ∧
   batch_teachers (db w) ⊆ batch_teachers prod) ∧
  (size (teachers (db w)) ≤ size (teachers fast) ∧
   size (teachers (db w)) ≤ size (teachers prod)).
Proof.
  intros fast prod. subst fast prod. destruct w as [reach s file].
  destruct (import_data_final_store reach file) as [ops Hops].
  destruct (import_production_data_final_store reach file) as [pops Hpops].
  rewrite Hops, Hpops. cbn [db].
  pose proof (apply_ops_keeps ops s) as (H1 & H2 & H3).
  pose proof (apply_ops_keeps pops s) as (H4 & H5 & H6).
  repeat split; try done; by apply map_subseteq_size.
Qed.

(** *** The slices of production-import *)

Lemma slices_concat_steps {A} (n k : nat) (l : list A) :
  length l ≤ k * n →
  concat ((λ i, slice l i n) <$> ((λ j, j * n) <$> seq 0 k)) = l.
Proof.
  no_params. revert l. induction k as [|k IH]; intros l Hl.
  - destruct l; [done|]. cbn in Hl. lia.
  - cbn [seq fmap list_fmap concat].
    trans (take n l ++ drop n l); [|apply take_drop]. f_equal.
    etrans; [|apply (IH (drop n l)); rewrite length_drop; lia]. f_equal.
    rewrite <-fmap_S_seq, <-!list_fmap_compose. apply list_fmap_ext.
    intros i j _. cbn. unfold slice. by rewrite drop_drop.
Qed.

Lemma range0_slices {A} (l : list A) (step : nat) :
  0 < step → concat ((λ i, slice l i step) <$> range0 (length l) step) = l.
Proof.
  no_params. intros Hstep. unfold range0. apply slices_concat_steps.
  pose proof (Nat.div_mod_eq (length l + step - 1) step) as Hdm.
  pose proof (Nat.mod_upper_bound (length l + step - 1) step) as Hlt.
  rewrite (Nat.mul_comm step) in Hdm. lia.
Qed.

(** *** Runs in which no insert raises *)

Lemma ops_of_app (a b : list event) : ops_of (a ++ b) = ops_of a ++ ops_of b.
Proof. no_params. unfold ops_of. by rewrite fmap_app, concat_app. Qed.

Lemma quiet_app (a b : list event) : quiet (a ++ b) ↔ quiet a ∧ quiet b.
Proof. unfold quiet. rewrite existsb_app. apply orb_false_iff. Qed.

Lemma quiet_nil : quiet [].
Proof. done. Qed.

Lemma staged_refl (c : connection) : staged [] c c.
Proof. unfold staged. by rewrite app_nil_r. Qed.

Lemma staged_trans e1 e2 (c c' c'' : connection) :
  staged e1 c c' → staged e2 c' c'' → staged (e1 ++ e2) c c''.
Proof.
  intros (H1 & H2 & H3) (H4 & H5 & H6). unfold staged.
  rewrite H4, H1, H5, H2, app_assoc. split; [done|]. split; [done|].
  intros [Q1 Q2]%quiet_app. by rewrite H6, H3, ops_of_app, apply_ops_app.
Qed.

Lemma settled_refl (c : connection) : clean c → settled [] c c.
Proof. intros H. unfold settled. by rewrite app_nil_r. Qed.

Lemma settled_trans e1 e2 (c c' c'' : connection) :
  settled e1 c c' → settled e2 c' c'' → settled (e1 ++ e2) c c''.
Proof.
  intros (H1 & H2 & H3) (H4 & H5 & H6). unfold settled.
  rewrite H4, H1, app_assoc. split; [done|]. split; [done|].
  intros [Q1 Q2]%quiet_app. by rewrite H6, H3, ops_of_app, apply_ops_app.
Qed.

Lemma settled_clean evs (c c' : connection) : settled evs c c' → clean c'.
Proof. by intros (_ & ? & _). Qed.

Lemma staged_commit evs (c c' : connection) :
  clean c → staged evs c c' → settled (evs ++ [Commit]) c (commit c').
Proof.
  unfold clean, staged, settled, commit. intros Hc (H1 & H2 & H3). cbn.
  rewrite H1, app_assoc. split; [done|]. split; [done|].
  intros [Q _]%quiet_app. rewrite H3, Hc, ops_of_app by done. cbn. by rewrite app_nil_r.
Qed.

Lemma staged_rollback evs (c c' : connection) :
  clean c → staged evs c c' → ¬ quiet evs → settled (evs ++ [Rollback]) c (rollback c').
Proof.
  unfold clean, staged, settled, rollback. intros Hc (H1 & H2 & H3) Hloud. cbn.
  rewrite H1, app_assoc. split; [done|]. split; [done|].
  by intros [Q _]%quiet_app.
Qed.

Lemma teachers_table : table teacher_ok insert_teacher OpTeacher ExecTeachers.
Proof. done. Qed.
Lemma batches_table : table batch_ok insert_batch OpBatch ExecBatches.
Proof. done. Qed.
Lemma links_table : table link_ok insert_link OpLink ExecLinks.
Proof. done. Qed.

Lemma bulk_insert_fst {R} (ok : R → bool) (ins : R → store → store) recs w :
  (bulk_insert ok ins recs w).1 = forallb ok recs.
Proof.
  no_params. revert w. induction recs as [|r recs IH]; intros w; [done|].
  cbn. destruct (ok r); [apply IH|done].
Qed.

Lemma bulk_insert_all {R} (ok : R → bool) (ins : R → store → store) (mk : R → op)
    recs w :
  (∀ r w, ins r w = apply_op (mk r) w) →
  forallb ok recs = true →
  (bulk_insert ok ins recs w).2 = apply_ops (mk <$> recs) w.
Proof.
  no_params. intros Hmk. revert w. induction recs as [|r recs IH]; intros w Hok; [done|].
  cbn in *. apply andb_true_iff in Hok as [-> Hok]. by rewrite IH, Hmk.
Qed.

Lemma executemany_staged {R} (ok : R → bool) (ins : R → store → store) (mk : R → op)
    (ev : list R → event) (recs : list R) :
  table ok ins mk ev → staged_step (executemany ok ins ev recs) [ev recs].
Proof.
  intros (Hmk & Hbad & Hev) c. unfold executemany.
  pose proof (bulk_insert_fst ok ins recs (working c)) as Hfst.
  pose proof (bulk_insert_all ok ins mk recs (working c) Hmk) as Hall.
  destruct (bulk_insert ok ins recs (working c)) as [b w]. cbn [fst snd] in *.
  cbn [existsb]. rewrite Hbad, orb_false_r, negb_involutive. split; [done|].
  unfold staged. cbn. split; [done|]. split; [done|].
  unfold quiet. cbn [existsb]. rewrite Hbad, orb_false_r. intros Hq.
  apply negb_false_iff in Hq. rewrite Hall by done.
  unfold ops_of. cbn. by rewrite Hev, app_nil_r.
Qed.

Lemma try_commit_settled {R} (ok : R → bool) (ins : R → store → store) (mk : R → op)
    (ev : list R → event) (recs : list R) (c : connection) :
  table ok ins mk ev → clean c →
  settled [ev recs; if forallb ok recs then Commit else Rollback] c
    (try_commit (executemany ok ins ev recs c)).
Proof.
  intros Ht Hc. destruct (executemany_staged ok ins mk ev recs Ht c) as [H1 H2].
  destruct Ht as (_ & Hbad & _). unfold try_commit. rewrite H1. cbn [existsb].
  rewrite Hbad, orb_false_r, negb_involutive.
  destruct (forallb ok recs) eqn:E.
  - by apply (staged_commit [ev recs]).
  - apply (staged_rollback [ev recs]); [done..|].
    unfold quiet. cbn [existsb]. by rewrite Hbad, E.
Qed.

Lemma flush_teachers_settled m c :
  clean c → settled (teacher_flush_events m) c (flush_teachers m c).2.
Proof.
  intros Hc. unfold flush_teachers, teacher_flush_events. case_bool_decide; cbn [snd].
  - apply (try_commit_settled _ _ OpTeacher); [apply teachers_table|done].
  - by apply settled_refl.
Qed.

Lemma flush_batches_settled m c :
  clean c → settled (batch_flush_events m) c (flush_batches m c).2.
Proof.
  intros Hc. unfold flush_batches, batch_flush_events. case_bool_decide; cbn [snd].
  - apply (try_commit_settled _ _ OpBatch); [apply batches_table|done].
  - by apply settled_refl.
Qed.

Lemma flush_links_settled m c :
  clean c → settled (link_flush_events m) c (flush_links m c).2.
Proof.
  intros Hc. unfold flush_links, link_flush_events. case_bool_decide; cbn [snd].
  - apply (try_commit_settled _ _ OpLink); [apply links_table|done].
  - by apply settled_refl.
Qed.

Lemma flush_chunks_settled m c :
  clean c → settled (flush_events m) c (flush_chunks m c).2.
Proof.
  intros Hc. pose proof (flush_chunks_log m c) as Hlog. revert Hlog.
  unfold flush_chunks.
  pose proof (flush_teachers_settled m c Hc) as H1.
  destruct (flush_teachers m c) as [m1 c1]. cbn [snd] in H1.
  pose proof (flush_batches_settled m1 c1 (settled_clean _ _ _ H1)) as H2.
  destruct (flush_batches m1 c1) as [m2 c2]. cbn [snd] in H2.
  pose proof (flush_links_settled m2 c2 (settled_clean _ _ _ H2)) as H3.
  intros Hlog.
  pose proof (settled_trans _ _ _ _ _ H1 (settled_trans _ _ _ _ _ H2 H3)) as H.
  destruct H as (Hl & ?). rewrite Hlog in Hl. apply app_inv_head in Hl.
  rewrite Hl. eapply settled_trans; [done|]. by eapply settled_trans.
Qed.

Lemma for_rows_settled rows m c :
  clean c → ∃ evs, settled evs c (for_rows rows m c).2.
Proof.
  revert m c. induction rows as [|row rows IH]; intros m c Hc.
  - exists []. by apply settled_refl.
  - cbn [for_rows]. destruct (accumulate_row row m) as [|e|m1].
    + by apply IH.
    + exists []. by apply settled_refl.
    + pose proof (flush_chunks_settled m1 c Hc) as H1.
      destruct (flush_chunks m1 c) as [m2 c2]. cbn [snd] in H1.
      destruct (IH m2 c2 (settled_clean _ _ _ H1)) as [evs H2].
      eexists. by eapply settled_trans.
Qed.

Lemma when_nonempty_staged {R} (ok : R → bool) (ins : R → store → store) (mk : R → op)
    (ev : list R → event) (recs : list R) :
  table ok ins mk ev →
  staged_step (when_nonempty (executemany ok ins ev) recs)
    (if truthy_list recs then [ev recs] else []).
Proof.
  intros Ht. unfold when_nonempty. destruct (truthy_list recs).
  - by apply (executemany_staged ok ins mk).
  - intros c. split; [done|]. apply staged_refl.
Qed.

Lemma insert_slices_staged {R} (ok : R → bool) (ins : R → store → store) (mk : R → op)
    (ev : list R → event) (l : list R) (starts : list nat) :
  table ok ins mk ev →
  ∃ n, staged_step (insert_slices (executemany ok ins ev) l starts)
         ((λ i, ev (slice l i batch_size)) <$> take n starts) ∧
       (quiet ((λ i, ev (slice l i batch_size)) <$> take n starts) →
        take n starts = starts).
Proof.
  intros Ht. induction starts as [|i starts (n & IH & Hn)].
  - exists 0. split; [|done]. intros c. split; [done|]. apply staged_refl.
  - pose proof (executemany_staged ok ins mk ev (slice l i batch_size) Ht) as H1.
    destruct (raises (ev (slice l i batch_size))) eqn:E.
    + exists 1. cbn [take fmap list_fmap]. rewrite take_0. cbn [fmap list_fmap]. split.
      * intros c. cbn [insert_slices]. destruct (H1 c) as [Hok Hs].
        destruct (executemany ok ins ev (slice l i batch_size) c) as [b c1].
        cbn [fst snd existsb] in *. rewrite E in Hok. cbn in Hok. subst b.
        split; [by rewrite E|done].
      * unfold quiet. cbn [existsb]. by rewrite E.
    + exists (S n). cbn [take fmap list_fmap]. split.
      * intros c. cbn [insert_slices]. destruct (H1 c) as [Hok Hs].
        destruct (executemany ok ins ev (slice l i batch_size) c) as [b c1].
        cbn [fst snd existsb] in *. rewrite E in Hok. cbn in Hok. subst b.
        destruct (IH c1) as [Hok' Hs']. rewrite E. cbn [orb]. split; [done|].
        by eapply (staged_trans [_]).
      * unfold quiet. cbn [existsb]. rewrite E. cbn [orb]. intros Hq.
        by rewrite Hn.
Qed.

Lemma in_one_transaction_settled f1 f2 f3 e1 e2 e3 c :
  staged_step f1 e1 → staged_step f2 e2 → staged_step f3 e3 → clean c →
  ∃ evs,
    settled evs c (settle (in_one_transaction f1 f2 f3 c)) ∧
    (quiet evs →
     evs = e1 ++ e2 ++ e3 ++ [Commit] ∧ (in_one_transaction f1 f2 f3 c).1 = None).
Proof.
  intros H1 H2 H3 Hc. unfold in_one_transaction, settle.
  destruct (H1 c) as [Hb1 S1]. destruct (f1 c) as [b1 c1]. cbn [fst snd] in *. subst b1.
  destruct (existsb raises e1) eqn:E1; cbn [negb fst snd].
  { exists (e1 ++ [Rollback]). split.
    - apply staged_rollback; [done..|]. unfold quiet. by rewrite E1.
    - intros [Q _]%quiet_app. unfold quiet in Q. by rewrite E1 in Q. }
  destruct (H2 c1) as [Hb2 S2]. destruct (f2 c1) as [b2 c2]. cbn [fst snd] in *. subst b2.
  pose proof (staged_trans _ _ _ _ _ S1 S2) as S12.
  destruct (existsb raises e2) eqn:E2; cbn [negb fst snd].
  { exists ((e1 ++ e2) ++ [Rollback]). split.
    - apply staged_rollback; [done..|]. intros [_ Q]%quiet_app. unfold quiet in Q.
      by rewrite E2 in Q.
    - intros [[_ Q]%quiet_app _]%quiet_app. unfold quiet in Q. by rewrite E2 in Q. }
  destruct (H3 c2) as [Hb3 S3]. destruct (f3 c2) as [b3 c3]. cbn [fst snd] in *. subst b3.
  pose proof (staged_trans _ _ _ _ _ S12 S3) as S123.
  destruct (existsb raises e3) eqn:E3; cbn [negb fst snd].
  { exists (((e1 ++ e2) ++ e3) ++ [Rollback]). split.
    - apply staged_rollback; [done..|]. intros [_ Q]%quiet_app. unfold quiet in Q.
      by rewrite E3 in Q.
    - intros [[_ Q]%quiet_app _]%quiet_app. unfold quiet in Q. by rewrite E3 in Q. }
  exists (((e1 ++ e2) ++ e3) ++ [Commit]). split.
  - by apply staged_commit.
  - intros _. by rewrite <-!app_assoc.
Qed.

Lemma final_flush_settled m c :
  clean c →
  ∃ evs,
    settled evs c (settle (final_flush m c)) ∧
    (quiet evs → evs = final_inserts m ++ [Commit] ∧ (final_flush m c).1 = None).
Proof.
  intros Hc. unfold final_flush, final_inserts.
  destruct (in_one_transaction_settled _ _ _ _ _ _ c
              (when_nonempty_staged _ _ _ _ (teacher_batch m) teachers_table)
              (when_nonempty_staged _ _ _ _ (batch_batch m) batches_table)
              (when_nonempty_staged _ _ _ _ (batch_teacher_batch m) links_table) Hc)
    as (evs & Hs & Hq).
  exists evs. split; [done|]. intros Q. destruct (Hq Q) as [-> ?].
  by rewrite <-!app_assoc.
Qed.

Lemma insert_all_settled m c :
  clean c →
  ∃ evs,
    settled evs c (settle (insert_all m c)) ∧
    (quiet evs → evs = planned_inserts m ++ [Commit] ∧ (insert_all m c).1 = None).
Proof.
  intros Hc. unfold insert_all, planned_inserts.
  destruct (insert_slices_staged _ _ _ _ (teacher_records m)
              (range0 (length (teacher_records m)) batch_size) teachers_table)
    as (n2 & H2 & Hn2).
  destruct (insert_slices_staged _ _ _ _ (batch_teacher_records m)
              (range0 (length (batch_teacher_records m)) batch_size) links_table)
    as (n3 & H3 & Hn3).
  destruct (in_one_transaction_settled _ _ _ _ _ _ c
              (when_nonempty_staged _ _ _ _ (batch_values (batch_data m)) batches_table)
              H2 H3 Hc) as (evs & Hs & Hq).
  exists evs. split; [done|]. intros Q. destruct (Hq Q) as [-> ?]. split; [|done].
  apply quiet_app in Q as [_ [Q2 [Q3 _]%quiet_app]%quiet_app].
  by rewrite Hn2, Hn3, <-!app_assoc.
Qed.

Lemma settled_rollback (c : connection) : clean c → settled [Rollback] c (rollback c).
Proof. intros Hc. unfold settled, rollback. cbn. done. Qed.

Lemma store_rows_no_raise rows m :
  Forall (λ row : list str, length row ≤ 7) rows → (store_rows rows m).1 = None.
Proof.
  intros Hrows. revert m. induction Hrows as [|row rows Hrow _ IH]; intros m; [done|].
  cbn [store_rows].
  destruct (row_cases row Hrow) as [Hshort|(d & b & sv & g & tid & tn & ph & ->)].
  - unfold store_row. rewrite bool_decide_eq_true_2 by done. apply IH.
  - rewrite store_row_7. destruct (clean_phone_number ph); apply IH.
Qed.

Lemma import_data_try_settled file c :
  clean c →
  ∃ evs,
    settled evs c (settle (import_data_try file c)) ∧
    (quiet evs → ∀ hdr rows,
       file = Some (hdr :: rows) →
       Forall (λ row : list str, length row ≤ 7) rows →
       log (settle (import_data_try file c)) =
       log (for_rows rows init_locals c).2 ++
       final_inserts (for_rows rows init_locals c).1.2 ++ [Commit]).
Proof.
  intros Hc. destruct file as [[|hdr rows]|]; cbn [import_data_try].
  - exists [Rollback]. split; [by apply settled_rollback|]. by intros _ ? ? ?.
  - destruct (for_rows_settled rows init_locals c Hc) as (sev & Hs).
    pose proof (for_rows_no_raise rows init_locals c) as Hnr.
    destruct (for_rows rows init_locals c) as [[[e|] m] c1] eqn:E; cbn [fst snd] in *.
    + exists (sev ++ [Rollback]). split.
      * eapply settled_trans; [done|]. unfold settle. cbn [fst snd].
        apply settled_rollback. by eapply settled_clean.
      * intros _ hdr' rows' [= _ <-] Hrows. by specialize (Hnr Hrows).
    + destruct (final_flush_settled m c1 (settled_clean _ _ _ Hs)) as (fev & Hf & Hq).
      exists (sev ++ fev). split; [by eapply settled_trans|].
      intros [_ Q]%quiet_app hdr' rows' [= _ <-] _. rewrite E. cbn [fst snd].
      destruct (Hq Q) as [-> _]. by destruct Hf as (-> & _).
  - exists [Rollback]. split; [by apply settled_rollback|]. by intros _ ? ? ?.
Qed.

Lemma import_production_data_try_settled file c :
  clean c →
  ∃ evs,
    settled evs c (settle (import_production_data_try file c)) ∧
    (quiet evs → ∀ hdr rows,
       file = Some (hdr :: rows) →
       Forall (λ row : list str, length row ≤ 7) rows →
       evs = planned_inserts (store_rows rows init_plocals).2 ++ [Commit]).
Proof.
  intros Hc. destruct file as [[|hdr rows]|]; cbn [import_production_data_try].
  - exists [Rollback]. split; [by apply settled_rollback|]. by intros _ ? ? ?.
  - pose proof (store_rows_no_raise rows init_plocals) as Hnr.
    destruct (store_rows rows init_plocals) as [[e|] m] eqn:E; cbn [fst snd] in *.
    + exists [Rollback]. split; [by apply settled_rollback|].
      intros _ hdr' rows' [= _ <-] Hrows. by specialize (Hnr Hrows).
    + destruct (insert_all_settled m c Hc) as (evs & Hs & Hq).
      exists evs. split; [done|]. intros Q hdr' rows' [= _ <-] _. rewrite E.
      by destruct (Hq Q).
  - exists [Rollback]. split; [by apply settled_rollback|]. by intros _ ? ? ?.
Qed.

Lemma quiet_close evs : quiet (evs ++ [Close]) → quiet evs.
Proof. by intros [? _]%quiet_app. Qed.

Lemma ops_of_close evs : ops_of (evs ++ [Close]) = ops_of evs.
Proof. rewrite ops_of_app. cbn. by rewrite app_nil_r. Qed.

Lemma import_data_quiet_store (w : world) :
  quiet (trace (import_data w)) →
  final_store (import_data w) = apply_ops (ops_of (trace (import_data w))) (db w).
Proof.
  unfold import_data. destruct (reachable w); [|done].
  destruct (import_data_try_settled (csv w) (connect (db w))) as (evs & Hs & _); [done|].
  destruct Hs as (Hlog & _ & Hq). cbn [trace final_store close log committed].
  rewrite Hlog. cbn [connect log app]. intros Q%quiet_close.
  by rewrite ops_of_close, Hq.
Qed.

Lemma import_production_data_quiet_store (w : world) :
  quiet (trace (import_production_data w)) →
  final_store (import_production_data w) =
  apply_ops (ops_of (trace (import_production_data w))) (db w).
Proof.
  unfold import_production_data. destruct (reachable w); [|done].
  destruct (import_production_data_try_settled (csv w) (connect (db w)))
    as (evs & Hs & _); [done|].
  destruct Hs as (Hlog & _ & Hq). cbn [trace final_store close log committed].
  rewrite Hlog. cbn [connect log app]. intros Q%quiet_close.
  by rewrite ops_of_close, Hq.
Qed.

(** X9.  A run in which no bulk insert raises leaves the store it found with
    every row handed to a statement inserted, in the order of the calls: no
    insert that went through stays uncommitted or is rolled back.  In both
    scripts, whatever the file. *)
Theorem quiet_run_commits_all (w : world) :
  (quiet (trace (import_data w)) →
   final_store (import_data w) = apply_ops (ops_of (trace (import_data w))) (db w)) ∧
  (quiet (trace (import_production_data w)) →
   final_store (import_production_data w) =
   apply_ops (ops_of (trace (import_production_data w))) (db w)).
Proof.
  split; [apply import_data_quiet_store|apply import_production_data_quiet_store].
Qed.

(** *** The records of the rows *)

Lemma queued_teachers_flushed m (l : list event) :
  queued (teacher_chunks (l ++ flush_events m)) (teacher_batch (flushed m)) =
  queued (teacher_chunks l) (teacher_batch m).
Proof.
  unfold queued. rewrite teacher_chunks_app, flush_events_teacher_chunks.
  unfold flushed. cbn [teacher_batch]. case_bool_decide.
  - rewrite concat_app. cbn [concat]. by rewrite !app_nil_r.
  - by rewrite app_nil_r.
Qed.

Lemma row_teacher_short norm (row : list str) : length row < 7 → row_teacher norm row = None.
Proof. intros H. unfold row_teacher. rewrite bool_decide_eq_false_2; [done|lia]. Qed.

Lemma row_link_short norm (row : list str) : length row < 7 → row_link norm row = None.
Proof. intros H. unfold row_link. rewrite bool_decide_eq_false_2; [done|lia]. Qed.

Lemma omap_cons_eq {A B} (f : A → option B) (x : A) (l : list A) :
  omap f (x :: l) = match f x with Some y => y :: omap f l | None => omap f l end.
Proof. done. Qed.

Lemma row_teacher_7 norm d b sv g tid tn ph :
  row_teacher norm [d; b; sv; g; tid; tn; ph] =
  (λ mobile, mkTeacher (clean_id tid) tn mobile d (str_or sv (py "Primary"))
               (str_or g (py "Primary"))) <$> norm ph.
Proof. unfold row_teacher. by rewrite bool_decide_eq_true_2. Qed.

Lemma row_link_7 norm d b sv g tid tn ph :
  row_link norm [d; b; sv; g; tid; tn; ph] =
  if bool_decide (named b) then (λ mobile, mkLink b mobile tn d) <$> norm ph else None.
Proof. unfold row_link. by rewrite (bool_decide_eq_true_2 (_ = 7)). Qed.

Lemma for_rows_records rows m c :
  Forall (λ row : list str, length row ≤ 7) rows →
  queued (teacher_chunks (log (for_rows rows m c).2)) (teacher_batch (for_rows rows m c).1.2) =
    queued (teacher_chunks (log c)) (teacher_batch m) ++ omap (row_teacher fast_mobile) rows ∧
  queued (link_chunks (log (for_rows rows m c).2))
    (batch_teacher_batch (for_rows rows m c).1.2) =
    queued (link_chunks (log c)) (batch_teacher_batch m) ++ omap (row_link fast_mobile) rows ∧
  count (for_rows rows m c).1.2 = count m + length (omap (row_teacher fast_mobile) rows).
Proof.
  intros Hrows. revert m c.
  induction Hrows as [|row rows Hrow _ IH]; intros m c.
  { cbn. rewrite !app_nil_r. split; [done|]. split; [done|lia]. }
  cbn [for_rows]. rewrite !omap_cons_eq.
  destruct (row_cases row Hrow) as [Hshort|(d & b & sv & g & tid & tn & ph & ->)].
  { unfold accumulate_row. rewrite bool_decide_eq_true_2 by done.
    rewrite row_teacher_short, row_link_short by done. apply IH. }
  rewrite accumulate_row_7, row_teacher_7, row_link_7.
  destruct (fast_mobile ph) as [mobile|] eqn:Hph; cbn [fmap option_fmap option_map].
  2:{ destruct (bool_decide (named b)); apply IH. }
  cbn zeta.
  match goal with |- context [flush_chunks ?m1 c] =>
    pose proof (flush_chunks_fst m1 c) as Hf; pose proof (flush_chunks_log m1 c) as Hlog;
    destruct (flush_chunks m1 c) as [m2 c2];
    cbn [fst snd] in Hf, Hlog; subst m2;
    destruct (IH (flushed m1) c2) as (IH1 & IH2 & IH3);
    rewrite IH1, IH2, IH3, Hlog, queued_teachers_flushed, queued_links_flushed
  end.
  cbn [teacher_batch batch_teacher_batch count flushed].
  unfold named. split; [|split].
  - unfold queued. by rewrite <-!app_assoc.
  - destruct (bool_decide (b ≠ [] ∧ b ≠ py "null")); [|done].
    unfold queued. by rewrite <-!app_assoc.
  - cbn [length]. lia.
Qed.

Lemma store_rows_records rows m :
  Forall (λ row : list str, length row ≤ 7) rows →
  teacher_records (store_rows rows m).2 =
    teacher_records m ++ omap (row_teacher clean_phone_number) rows ∧
  batch_teacher_records (store_rows rows m).2 =
    batch_teacher_records m ++ omap (row_link clean_phone_number) rows.
Proof.
  intros Hrows. revert m.
  induction Hrows as [|row rows Hrow _ IH]; intros m.
  { cbn. by rewrite !app_nil_r. }
  cbn [store_rows]. rewrite !omap_cons_eq.
  destruct (row_cases row Hrow) as [Hshort|(d & b & sv & g & tid & tn & ph & ->)].
  { unfold store_row. rewrite bool_decide_eq_true_2 by done.
    rewrite row_teacher_short, row_link_short by done. apply IH. }
  rewrite store_row_7, row_teacher_7, row_link_7.
  destruct (clean_phone_number ph) as [mobile|] eqn:Hph; cbn [fmap option_fmap option_map].
  2:{ destruct (bool_decide (named b)); apply IH. }
  cbn zeta. destruct (IH (mkPLocals
    (if bool_decide (b ≠ [] ∧ b ≠ py "null") && negb (dict_mem b (batch_data m))
     then dict_set b (mkInfo d (str_or sv (py "Primary")) (str_or g (py "Primary")))
            (batch_data m)
     else batch_data m)
    (teacher_records m ++
     [mkTeacher (clean_id tid) tn mobile d (str_or sv (py "Primary"))
        (str_or g (py "Primary"))])
    (if bool_decide (b ≠ [] ∧ b ≠ py "null")
     then batch_teacher_records m ++ [mkLink b mobile tn d]
     else batch_teacher_records m))) as (IH1 & IH2).
  rewrite IH1, IH2. cbn [teacher_records batch_teacher_records]. unfold named. split.
  - by rewrite <-!app_assoc.
  - destruct (bool_decide (b ≠ [] ∧ b ≠ py "null")); [|done]. by rewrite <-!app_assoc.
Qed.

(** X10.  Every valid row read by the loop of fast-import has its Teacher record,
    and its Link record if it names a batch, either handed to the statement
    or still in the buffer, in the order of the rows, whatever the store
    answered; [count] is the number of these Teacher records.  The lists of
    production-import hold the same records for its own phone check. *)
Theorem rows_become_records (rows : list (list str)) (s : store) :
  Forall (λ row : list str, length row ≤ 7) rows →
  let fast := for_rows rows init_locals (connect s) in
  let prod := store_rows rows init_plocals in
  queued (teacher_chunks (log fast.2)) (teacher_batch fast.1.2) =
    omap (row_teacher fast_mobile) rows ∧
  queued (link_chunks (log fast.2)) (batch_teacher_batch fast.1.2) =
    omap (row_link fast_mobile) rows ∧
  count fast.1.2 = length (omap (row_teacher fast_mobile) rows) ∧
  teacher_records prod.2 = omap (row_teacher clean_phone_number) rows ∧
  batch_teacher_records prod.2 = omap (row_link clean_phone_number) rows.
Proof.
  intros Hrows fast prod. subst fast prod.
  destruct (for_rows_records rows init_locals (connect s) Hrows) as (H1 & H2 & H3).
  destruct (store_rows_records rows init_plocals Hrows) as (H4 & H5).
  rewrite H1, H2, H3, H4, H5. done.
Qed.

(** *** What a sequence of skip-on-conflict inserts stores *)

Lemma teachers_apply_ops (ops : list op) (s : store) (k : str) :
  teachers (apply_ops ops s) !! k =
  match teachers s !! k with
  | Some r => Some r
  | None => head (filter (λ r, t_mobile r = k) (teacher_recs ops))
  end.
Proof.
  no_params. revert s. induction ops as [|o ops IH]; intros s.
  { cbn. by destruct (teachers s !! k). }
  cbn [apply_ops foldl]. fold (apply_ops ops (apply_op o s)). rewrite IH.
  destruct o as [r|r|r]; cbn [apply_op teacher_recs omap list_omap];
    fold (teacher_recs ops); [|by unfold insert_batch; destruct (batches s !! _)
                              |by unfold insert_link; destruct (batch_teachers s !! _)].
  unfold insert_teacher. destruct (decide (t_mobile r = k)) as [<-|Hk].
  - rewrite filter_cons_True by done.
    destruct (teachers s !! t_mobile r) eqn:E; cbn [teachers]; [by rewrite E|].
    by rewrite lookup_insert_eq.
  - rewrite filter_cons_False by done.
    destruct (teachers s !! t_mobile r) eqn:E; cbn [teachers]; [done|].
    by rewrite lookup_insert_ne.
Qed.

Lemma batches_apply_ops (ops : list op) (s : store) (k : str) :
  batches (apply_ops ops s) !! k =
  match batches s !! k with
  | Some r => Some r
  | None => head (filter (λ r, b_batch_name r = k) (batch_recs ops))
  end.
Proof.
  no_params. revert s. induction ops as [|o ops IH]; intros s.
  { cbn. by destruct (batches s !! k). }
  cbn [apply_ops foldl]. fold (apply_ops ops (apply_op o s)). rewrite IH.
  destruct o as [r|r|r]; cbn [apply_op batch_recs omap list_omap];
    fold (batch_recs ops); [by unfold insert_teacher; destruct (teachers s !! _)|
                            |by unfold insert_link; destruct (batch_teachers s !! _)].
  unfold insert_batch. destruct (decide (b_batch_name r = k)) as [<-|Hk].
  - rewrite filter_cons_True by done.
    destruct (batches s !! b_batch_name r) eqn:E; cbn [batches]; [by rewrite E|].
    by rewrite lookup_insert_eq.
  - rewrite filter_cons_False by done.
    destruct (batches s !! b_batch_name r) eqn:E; cbn [batches]; [done|].
    by rewrite lookup_insert_ne.
Qed.

Lemma batch_teachers_apply_ops (ops : list op) (s : store) (k : str * str) :
  batch_teachers (apply_ops ops s) !! k =
  match batch_teachers s !! k with
  | Some r => Some r
  | None => head (filter (λ r, (l_batch_name r, l_teacher_mobile r) = k) (link_recs ops))
  end.
Proof.
  no_params. revert s. induction ops as [|o ops IH]; intros s.
  { cbn. by destruct (batch_teachers s !! k). }
  cbn [apply_ops foldl]. fold (apply_ops ops (apply_op o s)). rewrite IH.
  destruct o as [r|r|r]; cbn [apply_op link_recs omap list_omap];
    fold (link_recs ops); [by unfold insert_teacher; destruct (teachers s !! _)
                           |by unfold insert_batch; destruct (batches s !! _)|].
  unfold insert_link.
  destruct (decide ((l_batch_name r, l_teacher_mobile r) = k)) as [<-|Hk].
  - rewrite filter_cons_True by done.
    destruct (batch_teachers s !! (l_batch_name r, l_teacher_mobile r)) eqn:E;
      cbn [batch_teachers]; [by rewrite E|].
    by rewrite lookup_insert_eq.
  - rewrite filter_cons_False by done.
    destruct (batch_teachers s !! (l_batch_name r, l_teacher_mobile r)) eqn:E;
      cbn [batch_teachers]; [done|].
    by rewrite lookup_insert_ne.
Qed.

Lemma omap_fmap_id {A B} (f : A → B) (g : B → option A) (l : list A) :
  (∀ x, g (f x) = Some x) → omap g (f <$> l) = l.
Proof.
  no_params. intros H. induction l as [|x l IH]; [done|].
  cbn. rewrite H. cbn. by f_equal.
Qed.

Lemma omap_fmap_none {A B C} (f : A → B) (g : B → option C) (l : list A) :
  (∀ x, g (f x) = None) → omap g (f <$> l) = [].
Proof.
  no_params. intros H. induction l as [|x l IH]; [done|]. cbn. by rewrite H.
Qed.

Lemma recs_of_events (evs : list event) :
  teacher_recs (ops_of evs) = concat (teacher_chunks evs) ∧
  batch_recs (ops_of evs) = concat (batch_chunks evs) ∧
  link_recs (ops_of evs) = concat (link_chunks evs).
Proof.
  no_params. induction evs as [|e evs (IH1 & IH2 & IH3)]; [done|].
  unfold teacher_recs, batch_recs, link_recs, ops_of in *.
  cbn [fmap list_fmap concat]. rewrite !omap_app, IH1, IH2, IH3.
  unfold teacher_chunks, batch_chunks, link_chunks.
  destruct e as [recs|recs|recs| | |]; cbn [ops_of_event omap list_omap concat app];
    rewrite ?(omap_fmap_id OpTeacher), ?(omap_fmap_id OpBatch), ?(omap_fmap_id OpLink),
      ?(omap_fmap_none OpTeacher), ?(omap_fmap_none OpBatch), ?(omap_fmap_none OpLink);
    done.
Qed.

(** *** Batch names *)

Lemma for_rows_batches_named rows m c :
  Forall (λ b, named (b_batch_name b))
    (queued (batch_chunks (log c)) (batch_batch m)) →
  Forall (λ b, named (b_batch_name b))
    (queued (batch_chunks (log (for_rows rows m c).2)) (batch_batch (for_rows rows m c).1.2)).
Proof.
  revert m c. induction rows as [|row rows IH]; intros m c Hq; [done|].
  cbn [for_rows]. destruct (accumulate_row row m) as [|e|m1] eqn:E; [by apply IH|done|].
  destruct (accumulate_row_Accepted _ _ _ E)
    as (d & b & sv & g & tid & tn & ph & mobile & -> & Hm).
  rewrite accumulate_row_7, Hm in E. injection E as <-.
  match goal with |- context [flush_chunks ?m1 c] =>
    pose proof (flush_chunks_fst m1 c) as Hf; pose proof (flush_chunks_log m1 c) as Hlog;
    destruct (flush_chunks m1 c) as [m2 c2];
    cbn [fst snd] in Hf, Hlog; subst m2
  end.
  apply IH. rewrite Hlog, queued_batches_flushed. cbn [batch_batch].
  destruct (bool_decide (b ≠ [] ∧ b ≠ py "null")) eqn:Hb; cbn [andb]; [|done].
  destruct (bool_decide (b ∉ unique_batches m)); [|done].
  unfold queued in *. rewrite app_assoc. apply Forall_app. split; [done|].
  apply Forall_singleton. by apply bool_decide_eq_true_1 in Hb.
Qed.

Lemma store_rows_batches_named rows m :
  Forall (λ b, named (b_batch_name b)) (batch_values (batch_data m)) →
  Forall (λ b, named (b_batch_name b)) (batch_values (batch_data (store_rows rows m).2)).
Proof.
  revert m. induction rows as [|row rows IH]; intros m Hq; [done|].
  cbn [store_rows]. destruct (store_row row m) as [|e|m1] eqn:E; [by apply IH|done|].
  apply IH. destruct (decide (length row < 7)) as [Hlt|Hge].
  { unfold store_row in E. by rewrite bool_decide_eq_true_2 in E. }
  destruct (decide (7 < length row)) as [Hgt|Hle].
  { by rewrite (proj2 (long_row_raises row init_locals m Hgt)) in E. }
  destruct (row_cases row) as [?|(d & b & sv & g & tid & tn & ph & ->)]; [lia|lia|].
  rewrite store_row_7 in E. destruct (clean_phone_number ph); [|done].
  injection E as <-. cbn [batch_data].
  destruct (bool_decide (b ≠ [] ∧ b ≠ py "null")) eqn:Hb; cbn [andb]; [|done].
  destruct (dict_mem b (batch_data m)) eqn:Hmem; cbn [negb]; [done|].
  rewrite dict_set_fresh by done. unfold batch_values. rewrite fmap_app.
  apply Forall_app. split; [done|]. apply Forall_singleton.
  by apply bool_decide_eq_true_1 in Hb.
Qed.

Lemma head_first_batch (rows : list (list str)) :
  head (first_batch rows) = batch_of_row <$> head rows.
Proof. no_params. by destruct rows. Qed.

Lemma filter_unnamed (k : str) (l : list BatchRec) :
  Forall (λ b, named (b_batch_name b)) l → ¬ named k →
  filter (λ b, b_batch_name b = k) l = [].
Proof.
  no_params. intros Hl Hk. induction Hl as [|b l Hb _ IH]; [done|].
  rewrite filter_cons_False; [done|]. by intros <-.
Qed.

Lemma for_rows_batch_head (k : str) rows (s : store) :
  Forall (λ row : list str, length row ≤ 7) rows →
  head (filter (λ b, b_batch_name b = k)
          (queued (batch_chunks (log (for_rows rows init_locals (connect s)).2))
             (batch_batch (for_rows rows init_locals (connect s)).1.2))) =
  if decide (named k) then batch_of_row <$> head (filter (λ row, fast_refers k row) rows)
  else None.
Proof.
  intros Hrows. destruct (decide (named k)) as [[Hne Hnull]|Hk].
  - rewrite for_rows_batch_name by done. cbn [init_locals unique_batches connect log].
    rewrite decide_False by (clear; set_solver). cbn. apply head_first_batch.
  - rewrite filter_unnamed; [done| |done]. by apply for_rows_batches_named.
Qed.

Lemma store_rows_batch_head (k : str) rows :
  Forall (λ row : list str, length row ≤ 7) rows →
  head (filter (λ b, b_batch_name b = k)
          (batch_values (batch_data (store_rows rows init_plocals).2))) =
  if decide (named k) then batch_of_row <$> head (filter (λ row, prod_refers k row) rows)
  else None.
Proof.
  intros Hrows. destruct (decide (named k)) as [[Hne Hnull]|Hk].
  - rewrite store_rows_batch_name by done. cbn. apply head_first_batch.
  - rewrite filter_unnamed; [done| |done]. by apply store_rows_batches_named.
Qed.

(** *** What a run without a raising insert stores *)

Lemma final_inserts_chunks m :
  concat (teacher_chunks (final_inserts m)) = teacher_batch m ∧
  concat (batch_chunks (final_inserts m)) = batch_batch m ∧
  concat (link_chunks (final_inserts m)) = batch_teacher_batch m.
Proof.
  unfold final_inserts.
  destruct (teacher_batch m), (batch_batch m), (batch_teacher_batch m);
    cbn; by rewrite ?app_nil_r.
Qed.

Lemma planned_inserts_chunks m :
  concat (teacher_chunks (planned_inserts m)) = teacher_records m ∧
  concat (batch_chunks (planned_inserts m)) = batch_values (batch_data m) ∧
  concat (link_chunks (planned_inserts m)) = batch_teacher_records m.
Proof.
  unfold planned_inserts.
  assert (∀ (l : list nat) (f : nat → list TeacherRec),
            teacher_chunks ((λ i, ExecTeachers (f i)) <$> l) = f <$> l ∧
            batch_chunks ((λ i, ExecTeachers (f i)) <$> l) = [] ∧
            link_chunks ((λ i, ExecTeachers (f i)) <$> l) = []) as HT.
  { intros l f. induction l as [|i l (IH1 & IH2 & IH3)]; [done|].
    cbn. fold (teacher_chunks ((λ i, ExecTeachers (f i)) <$> l)). by rewrite IH1. }
  assert (∀ (l : list nat) (f : nat → list LinkRec),
            teacher_chunks ((λ i, ExecLinks (f i)) <$> l) = [] ∧
            batch_chunks ((λ i, ExecLinks (f i)) <$> l) = [] ∧
            link_chunks ((λ i, ExecLinks (f i)) <$> l) = f <$> l) as HL.
  { intros l f. induction l as [|i l (IH1 & IH2 & IH3)]; [done|].
    cbn. fold (link_chunks ((λ i, ExecLinks (f i)) <$> l)). by rewrite IH3. }
  rewrite !teacher_chunks_app, !batch_chunks_app, !link_chunks_app.
  destruct (HT (range0 (length (teacher_records m)) batch_size)
              (λ i, slice (teacher_records m) i batch_size)) as (-> & -> & ->).
  destruct (HL (range0 (length (batch_teacher_records m)) batch_size)
              (λ i, slice (batch_teacher_records m) i batch_size)) as (-> & -> & ->).
  rewrite !app_nil_r, !concat_app.
  rewrite (range0_slices (teacher_records m) batch_size) by (unfold batch_size; lia).
  rewrite (range0_slices (batch_teacher_records m) batch_size)
    by (unfold batch_size; lia).
  destruct (batch_values (batch_data m)) as [|b bs] eqn:E; cbn; by rewrite ?app_nil_r.
Qed.

Lemma import_data_quiet_trace (w : world) hdr rows :
  reachable w = true → csv w = Some (hdr :: rows) →
  Forall (λ row : list str, length row ≤ 7) rows →
  quiet (trace (import_data w)) →
  trace (import_data w) =
  log (for_rows rows init_locals (connect (db w))).2 ++
  final_inserts (for_rows rows init_locals (connect (db w))).1.2 ++ [Commit; Close].
Proof.
  intros Hreach Hcsv Hrows. unfold import_data. rewrite Hreach.
  cbn [trace close log].
  destruct (import_data_try_settled (csv w) (connect (db w))) as (evs & Hs & Hq); [done|].
  destruct Hs as (Hlog & _). rewrite Hlog. cbn [connect log app]. intros Q%quiet_close.
  specialize (Hq Q hdr rows Hcsv Hrows). rewrite Hlog in Hq. cbn [connect log app] in Hq.
  rewrite Hq, <-!app_assoc. done.
Qed.

Lemma import_production_data_quiet_trace (w : world) hdr rows :
  reachable w = true → csv w = Some (hdr :: rows) →
  Forall (λ row : list str, length row ≤ 7) rows →
  quiet (trace (import_production_data w)) →
  trace (import_production_data w) =
  planned_inserts (store_rows rows init_plocals).2 ++ [Commit; Close].
Proof.
  intros Hreach Hcsv Hrows. unfold import_production_data. rewrite Hreach.
  cbn [trace close log].
  destruct (import_production_data_try_settled (csv w) (connect (db w)))
    as (evs & Hs & Hq); [done|].
  destruct Hs as (Hlog & _). rewrite Hlog. cbn [connect log app]. intros Q%quiet_close.
  rewrite (Hq Q hdr rows Hcsv Hrows), <-!app_assoc. done.
Qed.

Lemma import_data_stores (w : world) hdr rows :
  reachable w = true → csv w = Some (hdr :: rows) →
  Forall (λ row : list str, length row ≤ 7) rows →
  quiet (trace (import_data w)) →
  (∀ k, teachers (final_store (import_data w)) !! k =
        match teachers (db w) !! k with
        | Some r => Some r
        | None => head (filter (λ r, t_mobile r = k) (omap (row_teacher fast_mobile) rows))
        end) ∧
  (∀ k, batches (final_store (import_data w)) !! k =
        match batches (db w) !! k with
        | Some b => Some b
        | None => if decide (named k)
                  then batch_of_row <$> head (filter (λ row, fast_refers k row) rows)
                  else None
        end) ∧
  (∀ k, batch_teachers (final_store (import_data w)) !! k =
        match batch_teachers (db w) !! k with
        | Some l => Some l
        | None => head (filter (λ l, (l_batch_name l, l_teacher_mobile l) = k)
                          (omap (row_link fast_mobile) rows))
        end).
Proof.
  intros Hreach Hcsv Hrows Q.
  rewrite (import_data_quiet_store w Q).
  destruct (recs_of_events (trace (import_data w))) as (HT & HB & HL).
  pose proof (import_data_quiet_trace w hdr rows Hreach Hcsv Hrows Q) as Htr.
  destruct (final_inserts_chunks (for_rows rows init_locals (connect (db w))).1.2)
    as (FT & FB & FL).
  destruct (for_rows_records rows init_locals (connect (db w)) Hrows) as (RT & RL & _).
  unfold queued in RT, RL. cbn [connect log init_locals teacher_batch batch_teacher_batch
    teacher_chunks link_chunks omap list_omap concat app] in RT, RL.
  split; [|split]; intros k.
  - rewrite teachers_apply_ops, HT, Htr, !teacher_chunks_app, !concat_app, FT.
    cbn [teacher_chunks omap list_omap concat]. by rewrite app_nil_r, RT.
  - rewrite batches_apply_ops, HB, Htr, !batch_chunks_app, !concat_app, FB.
    cbn [batch_chunks omap list_omap concat]. rewrite app_nil_r.
    pose proof (for_rows_batch_head k rows (db w) Hrows) as Hh. unfold queued in Hh.
    by rewrite Hh.
  - rewrite batch_teachers_apply_ops, HL, Htr, !link_chunks_app, !concat_app, FL.
    cbn [link_chunks omap list_omap concat]. by rewrite app_nil_r, RL.
Qed.

Lemma import_production_data_stores (w : world) hdr rows :
  reachable w = true → csv w = Some (hdr :: rows) →
  Forall (λ row : list str, length row ≤ 7) rows →
  quiet (trace (import_production_data w)) →
  (∀ k, teachers (final_store (import_production_data w)) !! k =
        match teachers (db w) !! k with
        | Some r => Some r
        | None => head (filter (λ r, t_mobile r = k)
                          (omap (row_teacher clean_phone_number) rows))
        end) ∧
  (∀ k, batches (final_store (import_production_data w)) !! k =
        match batches (db w) !! k with
        | Some b => Some b
        | None => if decide (named k)
                  then batch_of_row <$> head (filter (λ row, prod_refers k row) rows)
                  else None
        end) ∧
  (∀ k, batch_teachers (final_store (import_production_data w)) !! k =
        match batch_teachers (db w) !! k with
        | Some l => Some l
        | None => head (filter (λ l, (l_batch_name l, l_teacher_mobile l) = k)
                          (omap (row_link clean_phone_number) rows))
        end).
Proof.
  intros Hreach Hcsv Hrows Q.
  rewrite (import_production_data_quiet_store w Q).
  destruct (recs_of_events (trace (import_production_data w))) as (HT & HB & HL).
  pose proof (import_production_data_quiet_trace w hdr rows Hreach Hcsv Hrows Q) as Htr.
  destruct (planned_inserts_chunks (store_rows rows init_plocals).2) as (FT & FB & FL).
  destruct (store_rows_records rows init_plocals Hrows) as (RT & RL).
  cbn [init_plocals teacher_records batch_teacher_records app] in RT, RL.
  split; [|split]; intros k.
  - rewrite teachers_apply_ops, HT, Htr, !teacher_chunks_app, !concat_app, FT.
    cbn [teacher_chunks omap list_omap concat]. by rewrite app_nil_r, RT.
  - rewrite batches_apply_ops, HB, Htr, !batch_chunks_app, !concat_app, FB.
    cbn [batch_chunks omap list_omap concat]. by rewrite app_nil_r, store_rows_batch_head.
  - rewrite batch_teachers_apply_ops, HL, Htr, !link_chunks_app, !concat_app, FL.
    cbn [link_chunks omap list_omap concat]. by rewrite app_nil_r, RL.
Qed.

(** X11.  After a run of fast-import over a file without over-long rows in which
    no bulk insert raised, each table holds, under a key, the row it held
    before or else the record of the first valid row of the file with that
    key: the teacher of the first row with the mobile, the batch of the
    first row with the batch name (a name that is not empty and not
    "null"), the link of the first row with the pair.  A key of no valid row
    is absent unless it was there before. *)
Theorem fast_import_first_row_wins (w : world) hdr rows :
  reachable w = true → csv w = Some (hdr :: rows) →
  Forall (λ row : list str, length row ≤ 7) rows →
  quiet (trace (import_data w)) →
  (∀ k, teachers (final_store (import_data w)) !! k =
        match teachers (db w) !! k with
        | Some r => Some r
        | None => head (filter (λ r, t_mobile r = k) (omap (row_teacher fast_mobile) rows))
        end) ∧
  (∀ k, batches (final_store (import_data w)) !! k =
        match batches (db w) !! k with
        | Some b => Some b
        | None => if decide (named k)
                  then batch_of_row <$> head (filter (λ row, fast_refers k row) rows)
                  else None
        end) ∧
  (∀ k, batch_teachers (final_store (import_data w)) !! k =
        match batch_teachers (db w) !! k with
        | Some l => Some l
        | None => head (filter (λ l, (l_batch_name l, l_teacher_mobile l) = k)
                          (omap (row_link fast_mobile) rows))
        end).
Proof. apply import_data_stores. Qed.

(** X12.  The same for production-import, with its own phone check. *)
Theorem production_import_first_row_wins (w : world) hdr rows :
  reachable w = true → csv w = Some (hdr :: rows) →
  Forall (λ row : list str, length row ≤ 7) rows →
  quiet (trace (import_production_data w)) →
  (∀ k, teachers (final_store (import_production_data w)) !! k =
        match teachers (db w) !! k with
        | Some r => Some r
        | None => head (filter (λ r, t_mobile r = k)
                          (omap (row_teacher clean_phone_number) rows))
        end) ∧
  (∀ k, batches (final_store (import_production_data w)) !! k =
        match batches (db w) !! k with
        | Some b => Some b
        | None => if decide (named k)
                  then batch_of_row <$> head (filter (λ row, prod_refers k row) rows)
                  else None
        end) ∧
  (∀ k, batch_teachers (final_store (import_production_data w)) !! k =
        match batch_teachers (db w) !! k with
        | Some l => Some l
        | None => head (filter (λ l, (l_batch_name l, l_teacher_mobile l) = k)
                          (omap (row_link clean_phone_number) rows))
        end).
Proof. apply import_production_data_stores. Qed.

(** *** The two scripts on the same file *)

Lemma omap_same {A B} (f g : A → option B) (l : list A) :
  Forall (λ x, f x = g x) l → omap f l = omap g l.
Proof.
  no_params. induction 1 as [|x l Hx _ IH]; [done|].
  rewrite !omap_cons_eq, Hx, IH. done.
Qed.

Lemma store_eq (s s' : store) :
  teachers s = teachers s' → batches s = batches s' →
  batch_teachers s = batch_teachers s' → s = s'.
Proof. no_params. destruct s, s'. cbn. by intros -> -> ->. Qed.

(** X13.  When [str.isdigit] and [[0-9]] agree on the phone fields of the file,
    no row has more than seven fields and no bulk insert raises in either
    run, fast-import and production-import leave the same store. *)
Theorem scripts_agree (w : world) hdr rows :
  reachable w = true → csv w = Some (hdr :: rows) →
  Forall (λ row : list str, length row ≤ 7) rows →
  Forall (λ row, Forall (λ ch, str_isdigit ch = bool_decide (is_0_9 ch)) (phone_of row))
    rows →
  quiet (trace (import_data w)) → quiet (trace (import_production_data w)) →
  final_store (import_data w) = final_store (import_production_data w).
Proof.
  intros Hreach Hcsv Hrows Hdig Qf Qp.
  destruct (import_data_stores w hdr rows Hreach Hcsv Hrows Qf) as (FT & FB & FL).
  destruct (import_production_data_stores w hdr rows Hreach Hcsv Hrows Qp)
    as (PT & PB & PL).
  assert (Hphone : Forall (λ row, clean_phone_number (phone_of row) =
                                  fast_mobile (phone_of row)) rows).
  { eapply Forall_impl; [exact Hdig|]. intros row H. by apply clean_phone_number_as_fast. }
  assert (HT : omap (row_teacher clean_phone_number) rows =
               omap (row_teacher fast_mobile) rows).
  { apply omap_same. eapply Forall_impl; [exact Hphone|]. intros row H.
    unfold row_teacher. by rewrite H. }
  assert (HL : omap (row_link clean_phone_number) rows = omap (row_link fast_mobile) rows).
  { apply omap_same. eapply Forall_impl; [exact Hphone|]. intros row H.
    unfold row_link. by rewrite H. }
  assert (HB : ∀ k, filter (λ row, prod_refers k row) rows =
                    filter (λ row, fast_refers k row) rows).
  { intros k. apply filter_same. eapply Forall_impl; [exact Hphone|]. intros row H.
    cbn beta. unfold prod_refers, fast_refers, prod_valid, fast_valid. by rewrite H. }
  apply store_eq; apply map_eq; intros k.
  - by rewrite FT, PT, HT.
  - by rewrite FB, PB, HB.
  - by rewrite FL, PL, HL.
Qed.

(** X14.  After a run of either script over a file without over-long rows in
    which no bulk insert raised, every valid row is in the store: its
    mobile is a key of [teachers], and if its batch name is not empty and
    not "null", the name is a key of [batches] and the pair of name and
    mobile a key of [batch_teachers]. *)
Theorem valid_rows_are_stored (w : world) hdr rows row :
  reachable w = true → csv w = Some (hdr :: rows) →
  Forall (λ row : list str, length row ≤ 7) rows →
  row ∈ rows →
  (quiet (trace (import_data w)) → fast_valid row = true →
   ∃ mobile, fast_mobile (phone_of row) = Some mobile ∧
     is_Some (teachers (final_store (import_data w)) !! mobile) ∧
     (named (default [] (row !! 1)) →
      is_Some (batches (final_store (import_data w)) !! default [] (row !! 1)) ∧
      is_Some (batch_teachers (final_store (import_data w)) !!
                 (default [] (row !! 1), mobile)))) ∧
  (quiet (trace (import_production_data w)) → prod_valid row = true →
   ∃ mobile, clean_phone_number (phone_of row) = Some mobile ∧
     is_Some (teachers (final_store (import_production_data w)) !! mobile) ∧
     (named (default [] (row !! 1)) →
      is_Some (batches (final_store (import_production_data w)) !! default [] (row !! 1)) ∧
      is_Some (batch_teachers (final_store (import_production_data w)) !!
                 (default [] (row !! 1), mobile)))).
Proof.
  intros Hreach Hcsv Hrows Hin.
  assert (Hhead : ∀ {A} (P : A → Prop) `{!∀ x, Decision (P x)} (l : list A) x,
            x ∈ l → P x → is_Some (head (filter P l))).
  { intros A P ? l x Hx HP. destruct (filter P l) as [|y l'] eqn:E; [|by eexists].
    exfalso. by apply (filter_nil_not_elem_of P l x). }
  assert (Homap : ∀ {B} (f : list str → option B) y, f row = Some y → y ∈ omap f rows).
  { intros B f y Hy. apply list_elem_of_omap. by exists row. }
  split.
  - intros Q Hvalid.
    destruct (import_data_stores w hdr rows Hreach Hcsv Hrows Q) as (FT & FB & FL).
    destruct (fast_valid_fields row Hvalid)
      as (d & b & sv & g & tid & tn & ph & mobile & -> & Hm).
    exists mobile. split; [done|]. split; [|intros Hnamed; split].
    + rewrite FT. destruct (teachers (db w) !! mobile); [done|].
      eapply (Hhead _ (λ r, t_mobile r = mobile)).
      * apply Homap. rewrite row_teacher_7, Hm. done.
      * done.
    + rewrite FB. change (default [] ([d; b; sv; g; tid; tn; ph] !! 1)) with b in *.
      destruct (batches (db w) !! b); [done|]. rewrite decide_True by done.
      apply fmap_is_Some. eapply (Hhead _ (λ r, fast_refers b r)); [exact Hin|].
      apply Is_true_true_2. rewrite fast_refers_7, Hm.
      by rewrite !bool_decide_eq_true_2.
    + rewrite FL. change (default [] ([d; b; sv; g; tid; tn; ph] !! 1)) with b in *.
      destruct (batch_teachers (db w) !! (b, mobile)); [done|].
      eapply (Hhead _ (λ l, (l_batch_name l, l_teacher_mobile l) = (b, mobile))).
      * apply Homap. rewrite row_link_7, Hm. by rewrite bool_decide_eq_true_2.
      * done.
  - intros Q Hvalid.
    destruct (import_production_data_stores w hdr rows Hreach Hcsv Hrows Q)
      as (FT & FB & FL).
    destruct (prod_valid_fields row Hvalid)
      as (d & b & sv & g & tid & tn & ph & mobile & -> & Hm).
    exists mobile. split; [done|]. split; [|intros Hnamed; split].
    + rewrite FT. destruct (teachers (db w) !! mobile); [done|].
      eapply (Hhead _ (λ r, t_mobile r = mobile)).
      * apply Homap. rewrite row_teacher_7, Hm. done.
      * done.
    + rewrite FB. change (default [] ([d; b; sv; g; tid; tn; ph] !! 1)) with b in *.
      destruct (batches (db w) !! b); [done|]. rewrite decide_True by done.
      apply fmap_is_Some. eapply (Hhead _ (λ r, prod_refers b r)); [exact Hin|].
      apply Is_true_true_2. rewrite prod_refers_7, Hm.
      by rewrite !bool_decide_eq_true_2.
    + rewrite FL. change (default [] ([d; b; sv; g; tid; tn; ph] !! 1)) with b in *.
      destruct (batch_teachers (db w) !! (b, mobile)); [done|].
      eapply (Hhead _ (λ l, (l_batch_name l, l_teacher_mobile l) = (b, mobile))).
      * apply Homap. rewrite row_link_7, Hm. by rewrite bool_decide_eq_true_2.
      * done.
Qed.

(** *** Exit status 0 of production-import *)

Lemma store_rows_None_short rows m :
  (store_rows rows m).1 = None → Forall (λ row : list str, length row ≤ 7) rows.
Proof.
  revert m. induction rows as [|row rows IH]; intros m H; [done|].
  cbn [store_rows] in H. destruct (decide (7 < length row)) as [Hgt|Hle].
  { by rewrite (proj2 (long_row_raises row init_locals m Hgt)) in H. }
  apply Forall_cons. split; [lia|].
  destruct (store_row row m); [by eapply IH|done|by eapply IH].
Qed.

(** X15.  Exit status 0 of production-import means that the file was imported as
    a whole: each table then holds, under a key, the row it held before or
    else the record of the first valid row of the file with that key. *)
Theorem production_success_means_imported (w : world) hdr rows :
  status (import_production_data w) = 0%Z → csv w = Some (hdr :: rows) →
  (∀ k, teachers (final_store (import_production_data w)) !! k =
        match teachers (db w) !! k with
        | Some r => Some r
        | None => head (filter (λ r, t_mobile r = k)
                          (omap (row_teacher clean_phone_number) rows))
        end) ∧
  (∀ k, batches (final_store (import_production_data w)) !! k =
        match batches (db w) !! k with
        | Some b => Some b
        | None => if decide (named k)
                  then batch_of_row <$> head (filter (λ row, prod_refers k row) rows)
                  else None
        end) ∧
  (∀ k, batch_teachers (final_store (import_production_data w)) !! k =
        match batch_teachers (db w) !! k with
        | Some l => Some l
        | None => head (filter (λ l, (l_batch_name l, l_teacher_mobile l) = k)
                          (omap (row_link clean_phone_number) rows))
        end).
Proof.
  intros Hstatus Hcsv.
  destruct (production_outcome w) as [(_ & Hq & hdr' & rows' & m & Hc & Hs & _)|(H1 & _)];
    cbn zeta in *; [|by rewrite Hstatus in H1].
  rewrite Hcsv in Hc. injection Hc as <- <-.
  apply (import_production_data_stores w hdr rows); [|done| |done].
  - unfold import_production_data in Hstatus. by destruct (reachable w).
  - apply (store_rows_None_short rows init_plocals). by rewrite Hs.
Qed.

(** *** The slices handed to the statements of production-import *)

Lemma range0_lt (stop step i : nat) : 0 < step → i ∈ range0 stop step → i < stop.
Proof.
  no_params. unfold range0. intros Hstep (k & -> & Hk)%list_elem_of_fmap.
  apply elem_of_seq in Hk.
  pose proof (Nat.Div0.mul_div_le (stop + step - 1) step). nia.
Qed.

Lemma slices_sizes {A} (l : list A) :
  Forall (λ chunk : list A, 0 < length chunk ≤ 1000)
    ((λ i, slice l i batch_size) <$> range0 (length l) batch_size).
Proof.
  no_params. apply Forall_fmap, Forall_forall. intros i Hi.
  apply range0_lt in Hi; [|unfold batch_size; lia].
  unfold slice, batch_size. cbn [compose]. rewrite length_take, length_drop. lia.
Qed.

Lemma planned_inserts_slices m :
  teacher_chunks (planned_inserts m) =
    (λ i, slice (teacher_records m) i batch_size) <$>
      range0 (length (teacher_records m)) batch_size ∧
  link_chunks (planned_inserts m) =
    (λ i, slice (batch_teacher_records m) i batch_size) <$>
      range0 (length (batch_teacher_records m)) batch_size.
Proof.
  unfold planned_inserts.
  assert (∀ (l : list nat) (f : nat → list TeacherRec),
            teacher_chunks ((λ i, ExecTeachers (f i)) <$> l) = f <$> l ∧
            link_chunks ((λ i, ExecTeachers (f i)) <$> l) = []) as HT.
  { intros l f. induction l as [|i l (IH1 & IH2)]; [done|].
    cbn. fold (teacher_chunks ((λ i, ExecTeachers (f i)) <$> l)). by rewrite IH1. }
  assert (∀ (l : list nat) (f : nat → list LinkRec),
            teacher_chunks ((λ i, ExecLinks (f i)) <$> l) = [] ∧
            link_chunks ((λ i, ExecLinks (f i)) <$> l) = f <$> l) as HL.
  { intros l f. induction l as [|i l (IH1 & IH2)]; [done|].
    cbn. fold (link_chunks ((λ i, ExecLinks (f i)) <$> l)). by rewrite IH2. }
  rewrite !teacher_chunks_app, !link_chunks_app.
  destruct (HT (range0 (length (teacher_records m)) batch_size)
              (λ i, slice (teacher_records m) i batch_size)) as (-> & ->).
  destruct (HL (range0 (length (batch_teacher_records m)) batch_size)
              (λ i, slice (batch_teacher_records m) i batch_size)) as (-> & ->).
  destruct (truthy_list (batch_values (batch_data m))); cbn; by rewrite ?app_nil_r.
Qed.

(** X8.  In a run of production-import that ends with status 0 the teacher
    statement is run on the slices [records[i:i+1000]], for [i] in
    [range(0, len(records), 1000)], of the Teacher records of the valid
    rows, and the link statement on those of the Link records.  Put end to
    end the chunks handed over are these records, in the order of the
    file, each of them once; no chunk is empty and none holds more than
    1000 records. *)
Theorem slices_cover (w : world) hdr rows :
  status (import_production_data w) = 0%Z → csv w = Some (hdr :: rows) →
  let tr := trace (import_production_data w) in
  let ts := omap (row_teacher clean_phone_number) rows in
  let ls := omap (row_link clean_phone_number) rows in
  (teacher_chunks tr = (λ i, slice ts i 1000) <$> range0 (length ts) 1000 ∧
   link_chunks tr = (λ i, slice ls i 1000) <$> range0 (length ls) 1000) ∧
  (concat (teacher_chunks tr) = ts ∧ concat (link_chunks tr) = ls) ∧
  (Forall (λ chunk : list TeacherRec, 0 < length chunk ≤ 1000) (teacher_chunks tr) ∧
   Forall (λ chunk : list LinkRec, 0 < length chunk ≤ 1000) (link_chunks tr)).
Proof.
  intros Hstatus Hcsv tr ts ls. subst tr ts ls.
  destruct (production_outcome w) as [(_ & _ & hdr' & rows' & m & Hc & Hs & Htr)|(H1 & _)];
    cbn zeta in *; [|by rewrite Hstatus in H1].
  rewrite Hcsv in Hc. injection Hc as <- <-.
  assert (Hrows : Forall (λ row : list str, length row ≤ 7) rows).
  { apply (store_rows_None_short rows init_plocals). by rewrite Hs. }
  destruct (store_rows_records rows init_plocals Hrows) as [HT HL].
  rewrite Hs in HT, HL. cbn [snd init_plocals teacher_records batch_teacher_records app]
    in HT, HL.
  destruct (planned_inserts_slices m) as [ET EL].
  rewrite Htr, teacher_chunks_app, link_chunks_app, ET, EL, HT, HL.
  cbn [teacher_chunks link_chunks omap list_omap]. rewrite !app_nil_r.
  fold batch_size. split; [done|]. split.
  - split; apply range0_slices; unfold batch_size; lia.
  - split; apply slices_sizes.
Qed.

(** *** No batch name twice *)

Lemma NoDup_fmap_filter {A K} `{!EqDecision K} (f : A → K) (l : list A) :
  (∀ k, length (filter (λ x, f x = k) l) ≤ 1) → NoDup (f <$> l).
Proof.
  no_params. induction l as [|x l IH]; intros H; [constructor|].
  cbn [fmap list_fmap]. apply NoDup_cons. split.
  - intros (y & Hy & Hin)%list_elem_of_fmap. specialize (H (f x)).
    rewrite filter_cons_True in H by done. cbn [length] in H.
    assert (filter (λ z, f z = f x) l = []) as Hnil
      by (apply length_zero_iff_nil; lia).
    by apply (filter_nil_not_elem_of _ _ y Hnil).
  - apply IH. intros k. specialize (H k).
    destruct (decide (f x = k)).
    + rewrite filter_cons_True in H by done. cbn [length] in H. lia.
    + by rewrite filter_cons_False in H.
Qed.

Lemma first_batch_length (rows : list (list str)) : length (first_batch rows) ≤ 1.
Proof. no_params. destruct rows; cbn; lia. Qed.

(** X16.  Over a file without over-long rows, no batch name is queued twice, by
    either script, and no queued Batch record has an empty name or the
    name "null": a bulk insert of batches never holds two rows for one
    key. *)
Theorem batch_names_unique (rows : list (list str)) (s : store) :
  Forall (λ row : list str, length row ≤ 7) rows →
  let fast := for_rows rows init_locals (connect s) in
  let prod := store_rows rows init_plocals in
  NoDup (b_batch_name <$> queued (batch_chunks (log fast.2)) (batch_batch fast.1.2)) ∧
  Forall (λ b, named (b_batch_name b))
    (queued (batch_chunks (log fast.2)) (batch_batch fast.1.2)) ∧
  NoDup (b_batch_name <$> batch_values (batch_data prod.2)) ∧
  Forall (λ b, named (b_batch_name b)) (batch_values (batch_data prod.2)).
Proof.
  intros Hrows fast prod. subst fast prod.
  pose proof (for_rows_batches_named rows init_locals (connect s)) as HF.
  pose proof (store_rows_batches_named rows init_plocals) as HP.
  specialize (HF (Forall_nil_2 _)). specialize (HP (Forall_nil_2 _)).
  split; [|split; [done|split; [|done]]].
  - apply NoDup_fmap_filter. intros k. destruct (decide (named k)) as [[Hne Hnull]|Hk].
    + rewrite for_rows_batch_name by done. cbn [init_locals unique_batches connect log].
      rewrite decide_False by (clear; set_solver). cbn [queued batch_chunks omap list_omap
        concat batch_batch app filter]. apply first_batch_length.
    + rewrite filter_unnamed by done. cbn. lia.
  - apply NoDup_fmap_filter. intros k. destruct (decide (named k)) as [[Hne Hnull]|Hk].
    + rewrite store_rows_batch_name by done. cbn. apply first_batch_length.
    + rewrite filter_unnamed by done. cbn. lia.
Qed.

End Scripts.

(** ** Properties that compare two stores *)



(** ** The scripts on concrete files *)



(** Two rows for batch B1: one Batch record, that of the first row, and two
    Link records. *)
Lemma one_batch_per_name_witness :
  let rows := [alice; no_district] in
  let fast := for_rows all_ok all_ok all_ok rows init_locals (connect empty_store) in
  Forall (λ row : list str, length row ≤ 7) rows ∧
  py "B1" ≠ [] ∧ py "B1" ≠ py "null" ∧
  filter (λ b, b_batch_name b = py "B1")
    (queued (batch_chunks (log fast.2)) (batch_batch fast.1.2)) =
    [mkBatch (py "B1") (py "D1") (py "Production Import") (py "Primary") (py "G1")] ∧
  length (filter (λ l, l_batch_name l = py "B1")
    (queued (link_chunks (log fast.2)) (batch_teacher_batch fast.1.2))) = 2.
Proof.
  intros rows fast.
  assert (H1 : Forall (λ row : list str, length row ≤ 7) rows).
  { repeat constructor. }
  assert (H2 : py "B1" ≠ []) by discriminate.
  assert (H3 : py "B1" ≠ py "null") by discriminate.
  destruct (one_batch_per_name all_ok all_ok all_ok ascii_isdigit (py "B1") rows
              empty_store H1 H2 H3) as (Hb & Hl & _).
  split; [exact H1|]. split; [exact H2|]. split; [exact H3|].
  split; [exact Hb|exact Hl].
Defined.


(** C4, on rows of more than seven fields.  A row of fewer than seven
    fields is skipped by both loops, but the unpacking of a longer row
    raises.  On a file with a row of eight fields (a teacher name with a
    comma in it) fast-import stops reading, rolls back and ends with status
    0 without having written the valid row that follows, which it does
    write when the long row is not in the file; production-import ends
    with status 1. *)
Theorem long_row_ends_run :
  (∀ str_isdigit (row : list str) m pm,
     length row < 7 →
     accumulate_row row m = Skipped ∧ store_row str_isdigit row pm = Skipped) ∧
  (∀ str_isdigit (row : list str) m pm,
     7 < length row →
     accumulate_row row m = Raised ValueError ∧
     store_row str_isdigit row pm = Raised ValueError) ∧
  accumulate_row eight_fields init_locals = Raised ValueError ∧
  store_row ascii_isdigit eight_fields init_plocals = Raised ValueError ∧
  trace (import_data all_ok all_ok all_ok w_eight_fields) = [Rollback; Close] ∧
  final_store (import_data all_ok all_ok all_ok w_eight_fields) = empty_store ∧
  size (teachers (final_store (import_data all_ok all_ok all_ok w_alice))) = 1 ∧
  status (import_production_data all_ok all_ok all_ok ascii_isdigit w_eight_fields) = 1%Z ∧
  trace (import_production_data all_ok all_ok all_ok ascii_isdigit w_eight_fields) =
    [Rollback; Close].
Proof.
  split; [intros; by apply short_row_skipped|].
  split; [intros; by apply long_row_raises|].
  vm_compute. repeat split.
Qed.

(** C3, after a row of more than seven fields.  The loop of either script
    ends at such a row, whatever rows follow it.  In the file with the row
    of eight fields followed by the valid row of Alice, one valid row
    carries the batch name B1, yet no Batch record and no Link record is
    queued for it by either script and no batch is stored; from the file
    with the row of Alice alone the Batch record of B1 is queued and
    stored. *)
Theorem long_row_drops_batches :
  (∀ teacher_ok batch_ok link_ok str_isdigit (row : list str) rows m c pm,
     7 < length row →
     for_rows teacher_ok batch_ok link_ok (row :: rows) m c = (Some ValueError, m, c) ∧
     store_rows str_isdigit (row :: rows) pm = (Some ValueError, pm)) ∧
  (let rows := [eight_fields; alice] in
   let fast := for_rows all_ok all_ok all_ok rows init_locals (connect empty_store) in
   let prod := store_rows ascii_isdigit rows init_plocals in
   filter (λ row, fast_refers (py "B1") row) rows = [alice] ∧
   filter (λ row, prod_refers ascii_isdigit (py "B1") row) rows = [alice] ∧
   queued (batch_chunks (log fast.2)) (batch_batch fast.1.2) = [] ∧
   queued (link_chunks (log fast.2)) (batch_teacher_batch fast.1.2) = [] ∧
   batch_values (batch_data prod.2) = [] ∧
   batch_teacher_records prod.2 = []) ∧
  batches (final_store (import_data all_ok all_ok all_ok w_eight_fields)) !! py "B1" =
    None ∧
  batches (final_store (import_production_data all_ok all_ok all_ok ascii_isdigit
                          w_eight_fields)) !! py "B1" = None ∧
  (let fast := for_rows all_ok all_ok all_ok [alice] init_locals (connect empty_store) in
   queued (batch_chunks (log fast.2)) (batch_batch fast.1.2) = [batch_of_row alice]) ∧
  batches (final_store (import_data all_ok all_ok all_ok w_alice)) !! py "B1" =
    Some (batch_of_row alice).
Proof.
  split.
  { intros teacher_ok batch_ok link_ok str_isdigit row rows m c pm Hrow.
    destruct (long_row_raises str_isdigit row m pm Hrow) as [E1 E2].
    cbn [for_rows store_rows]. by rewrite E1, E2. }
  vm_compute. repeat split.
Qed.

(** C6, on fast-import.  Once the connection is made, fast-import ends
    with status 0 whatever happens: its handler rolls back and the function
    returns.  On a file that cannot be opened both scripts roll back and
    close the connection; production-import ends with status 1, fast-import
    with status 0, as it does after the long row and after an insert of the
    final flush that raises. *)
Theorem fast_import_exits_zero :
  (∀ teacher_ok batch_ok link_ok w,
     reachable w = true → status (import_data teacher_ok batch_ok link_ok w) = 0%Z) ∧
  (import_data_try all_ok all_ok all_ok (csv w_no_file) (connect (db w_no_file))).1 =
    Some OSError ∧
  trace (import_data all_ok all_ok all_ok w_no_file) = [Rollback; Close] ∧
  status (import_data all_ok all_ok all_ok w_no_file) = 0%Z ∧
  status (import_production_data all_ok all_ok all_ok ascii_isdigit w_no_file) = 1%Z ∧
  trace (import_production_data all_ok all_ok all_ok ascii_isdigit w_no_file) =
    [Rollback; Close] ∧
  status (import_data all_ok all_ok all_ok w_eight_fields) = 0%Z ∧
  (import_data_try all_ok district_required all_ok (csv w_no_district)
     (connect (db w_no_district))).1 = Some DatabaseError ∧
  status (import_data all_ok district_required all_ok w_no_district) = 0%Z.
Proof.
  split.
  { intros teacher_ok batch_ok link_ok w Hw. unfold import_data. by rewrite Hw. }
  vm_compute. repeat split.
Qed.

(** ** The further properties on concrete inputs *)

(** A string with an apostrophe and a backslash is the only one with its
    escape. *)
Lemma escape_sql_string_injective_witness :
  escape_sql_string (py "O'Neil\\") = escape_sql_string (py "O'Neil\\") ∧
  py "O'Neil\\" = py "O'Neil\\".
Proof.
  split; [reflexivity|]. by apply (escape_sql_string_injective (py "O'Neil\\")).
Defined.

(** The phone number of the first example row, cleaned by both scripts. *)
Lemma phone_clean_ups_agree_witness :
  Forall (λ ch, ascii_isdigit ch = bool_decide (is_0_9 ch)) (py "(98) 765-43210x9") ∧
  clean_phone_number ascii_isdigit (py "(98) 765-43210x9") =
  fast_mobile (py "(98) 765-43210x9").
Proof.
  assert (H : Forall (λ ch, ascii_isdigit ch = bool_decide (is_0_9 ch))
                (py "(98) 765-43210x9")).
  { apply Forall_forall. by intros ch _. }
  split; [exact H|]. exact (phone_clean_ups_agree ascii_isdigit _ H).
Defined.

(** The file with a repeated row on a store that accepts everything. *)
Lemma quiet_run_commits_all_witness :
  quiet all_ok all_ok all_ok (trace (import_data all_ok all_ok all_ok w_repeat)) ∧
  final_store (import_data all_ok all_ok all_ok w_repeat) =
  apply_ops (ops_of (trace (import_data all_ok all_ok all_ok w_repeat))) (db w_repeat).
Proof.
  assert (Q : quiet all_ok all_ok all_ok (trace (import_data all_ok all_ok all_ok w_repeat)))
    by (vm_compute; reflexivity).
  split; [exact Q|].
  exact (proj1 (quiet_run_commits_all all_ok all_ok all_ok ascii_isdigit w_repeat) Q).
Defined.

Lemma rows_become_records_witness :
  Forall (λ row : list str, length row ≤ 7) [alice; no_district; alice] ∧
  count (for_rows all_ok all_ok all_ok [alice; no_district; alice] init_locals
           (connect empty_store)).1.2 = 3.
Proof.
  assert (H : Forall (λ row : list str, length row ≤ 7) [alice; no_district; alice])
    by repeat constructor.
  split; [exact H|].
  destruct (rows_become_records all_ok all_ok all_ok ascii_isdigit
              [alice; no_district; alice] empty_store H) as (_ & _ & Hc & _).
  exact Hc.
Defined.

(** In the file with a repeated row the teacher stored under the mobile of
    the first row is the one of the first row. *)
Lemma fast_import_first_row_wins_witness :
  reachable w_repeat = true ∧
  csv w_repeat = Some (header :: [alice; no_district; alice]) ∧
  Forall (λ row : list str, length row ≤ 7) [alice; no_district; alice] ∧
  quiet all_ok all_ok all_ok (trace (import_data all_ok all_ok all_ok w_repeat)) ∧
  teachers (final_store (import_data all_ok all_ok all_ok w_repeat)) !! py "9876543210" =
  Some (mkTeacher (Some (py "T1")) (py "Alice") (py "9876543210") (py "D1")
          (py "Primary") (py "G1")).
Proof.
  assert (H1 : reachable w_repeat = true) by reflexivity.
  assert (H2 : csv w_repeat = Some (header :: [alice; no_district; alice])) by reflexivity.
  assert (H3 : Forall (λ row : list str, length row ≤ 7) [alice; no_district; alice])
    by repeat constructor.
  assert (H4 : quiet all_ok all_ok all_ok
                 (trace (import_data all_ok all_ok all_ok w_repeat)))
    by (vm_compute; reflexivity).
  do 4 (split; [assumption|]).
  destruct (fast_import_first_row_wins all_ok all_ok all_ok w_repeat header _ H1 H2 H3 H4)
    as (HT & _).
  exact (HT (py "9876543210")).
Defined.

Lemma production_import_first_row_wins_witness :
  reachable w_repeat = true ∧
  csv w_repeat = Some (header :: [alice; no_district; alice]) ∧
  Forall (λ row : list str, length row ≤ 7) [alice; no_district; alice] ∧
  quiet all_ok all_ok all_ok
    (trace (import_production_data all_ok all_ok all_ok ascii_isdigit w_repeat)) ∧
  batches (final_store (import_production_data all_ok all_ok all_ok ascii_isdigit w_repeat))
    !! py "B1" =
  Some (mkBatch (py "B1") (py "D1") (py "Production Import") (py "Primary") (py "G1")).
Proof.
  assert (H1 : reachable w_repeat = true) by reflexivity.
  assert (H2 : csv w_repeat = Some (header :: [alice; no_district; alice])) by reflexivity.
  assert (H3 : Forall (λ row : list str, length row ≤ 7) [alice; no_district; alice])
    by repeat constructor.
  assert (H4 : quiet all_ok all_ok all_ok
                 (trace (import_production_data all_ok all_ok all_ok ascii_isdigit
                           w_repeat)))
    by (vm_compute; reflexivity).
  do 4 (split; [assumption|]).
  destruct (production_import_first_row_wins all_ok all_ok all_ok ascii_isdigit w_repeat
              header _ H1 H2 H3 H4) as (_ & HB & _).
  exact (HB (py "B1")).
Defined.

Lemma scripts_agree_witness :
  reachable w_repeat = true ∧
  csv w_repeat = Some (header :: [alice; no_district; alice]) ∧
  Forall (λ row : list str, length row ≤ 7) [alice; no_district; alice] ∧
  Forall (λ row, Forall (λ ch, ascii_isdigit ch = bool_decide (is_0_9 ch)) (phone_of row))
    [alice; no_district; alice] ∧
  quiet all_ok all_ok all_ok (trace (import_data all_ok all_ok all_ok w_repeat)) ∧
  quiet all_ok all_ok all_ok
    (trace (import_production_data all_ok all_ok all_ok ascii_isdigit w_repeat)) ∧
  final_store (import_data all_ok all_ok all_ok w_repeat) =
  final_store (import_production_data all_ok all_ok all_ok ascii_isdigit w_repeat).
Proof.
  assert (H1 : reachable w_repeat = true) by reflexivity.
  assert (H2 : csv w_repeat = Some (header :: [alice; no_district; alice])) by reflexivity.
  assert (H3 : Forall (λ row : list str, length row ≤ 7) [alice; no_district; alice])
    by repeat constructor.
  assert (H4 : Forall (λ row, Forall (λ ch, ascii_isdigit ch = bool_decide (is_0_9 ch))
                                (phone_of row)) [alice; no_district; alice]).
  { apply Forall_forall. intros row _. apply Forall_forall. by intros ch _. }
  assert (H5 : quiet all_ok all_ok all_ok
                 (trace (import_data all_ok all_ok all_ok w_repeat)))
    by (vm_compute; reflexivity).
  assert (H6 : quiet all_ok all_ok all_ok
                 (trace (import_production_data all_ok all_ok all_ok ascii_isdigit
                           w_repeat)))
    by (vm_compute; reflexivity).
  do 6 (split; [assumption|]).
  exact (scripts_agree all_ok all_ok all_ok ascii_isdigit w_repeat header _
           H1 H2 H3 H4 H5 H6).
Defined.

Lemma valid_rows_are_stored_witness :
  reachable w_repeat = true ∧
  csv w_repeat = Some (header :: [alice; no_district; alice]) ∧
  Forall (λ row : list str, length row ≤ 7) [alice; no_district; alice] ∧
  no_district ∈ [alice; no_district; alice] ∧
  quiet all_ok all_ok all_ok (trace (import_data all_ok all_ok all_ok w_repeat)) ∧
  fast_valid no_district = true ∧
  ∃ mobile, fast_mobile (phone_of no_district) = Some mobile ∧
    is_Some (teachers (final_store (import_data all_ok all_ok all_ok w_repeat)) !! mobile).
Proof.
  assert (H1 : reachable w_repeat = true) by reflexivity.
  assert (H2 : csv w_repeat = Some (header :: [alice; no_district; alice])) by reflexivity.
  assert (H3 : Forall (λ row : list str, length row ≤ 7) [alice; no_district; alice])
    by repeat constructor.
  assert (H4 : no_district ∈ [alice; no_district; alice])
    by (apply list_elem_of_further, list_elem_of_here).
  assert (H5 : quiet all_ok all_ok all_ok
                 (trace (import_data all_ok all_ok all_ok w_repeat)))
    by (vm_compute; reflexivity).
  assert (H6 : fast_valid no_district = true) by (vm_compute; reflexivity).
  do 6 (split; [assumption|]).
  destruct (valid_rows_are_stored all_ok all_ok all_ok ascii_isdigit w_repeat header _
              no_district H1 H2 H3 H4) as [Hfast _].
  destruct (Hfast H5 H6) as (mobile & Hm & Hs & _). by exists mobile.
Defined.

Lemma production_success_means_imported_witness :
  status (import_production_data all_ok all_ok all_ok ascii_isdigit w_repeat) = 0%Z ∧
  csv w_repeat = Some (header :: [alice; no_district; alice]) ∧
  teachers (final_store (import_production_data all_ok all_ok all_ok ascii_isdigit
                           w_repeat)) !! py "9876543210" =
  Some (mkTeacher (Some (py "T1")) (py "Alice") (py "9876543210") (py "D1")
          (py "Primary") (py "G1")).
Proof.
  assert (H1 : status (import_production_data all_ok all_ok all_ok ascii_isdigit w_repeat)
               = 0%Z) by (vm_compute; reflexivity).
  assert (H2 : csv w_repeat = Some (header :: [alice; no_district; alice])) by reflexivity.
  do 2 (split; [assumption|]).
  destruct (production_success_means_imported all_ok all_ok all_ok ascii_isdigit w_repeat
              header _ H1 H2) as (HT & _).
  exact (HT (py "9876543210")).
Defined.

Lemma batch_names_unique_witness :
  Forall (λ row : list str, length row ≤ 7) [alice; no_district; alice] ∧
  NoDup (b_batch_name <$>
         batch_values (batch_data (store_rows ascii_isdigit [alice; no_district; alice]
                                     init_plocals).2)).
Proof.
  assert (H : Forall (λ row : list str, length row ≤ 7) [alice; no_district; alice])
    by repeat constructor.
  split; [exact H|].
  destruct (batch_names_unique all_ok all_ok all_ok ascii_isdigit
              [alice; no_district; alice] empty_store H) as (_ & _ & Hnd & _).
  exact Hnd.
Defined.

Lemma slices_cover_witness :
  status (import_production_data all_ok all_ok all_ok ascii_isdigit w_1500) = 0%Z ∧
  csv w_1500 = Some (header :: rows_1500) ∧
  concat (teacher_chunks
            (trace (import_production_data all_ok all_ok all_ok ascii_isdigit w_1500))) =
  omap (row_teacher (clean_phone_number ascii_isdigit)) rows_1500.
Proof.
  assert (H1 : status (import_production_data all_ok all_ok all_ok ascii_isdigit w_1500)
               = 0%Z) by (vm_compute; reflexivity).
  assert (H2 : csv w_1500 = Some (header :: rows_1500)) by reflexivity.
  do 2 (split; [assumption|]).
  destruct (slices_cover all_ok all_ok all_ok ascii_isdigit w_1500 header rows_1500 H1 H2)
    as (_ & [HT _] & _).
  exact HT.
Defined.
